(** * Address resolution of the Portland Maps client

    A shallow embedding of [PortlandMapsClient] (the address-resolution
    pipeline, the geocoding helpers it relies on and the text methods) and of
    the tool handler that calls it, followed by their properties.

    Modelling choices.
    - JavaScript numbers are finite doubles; each is denoted by the rational it
      equals ([Q]), so comparisons are the comparisons of the doubles.  The one
      place where the client computes with non-integers, the mean of two
      scores, goes through an explicit rounding to binary64 ([to_double]).
      Integer quantities (array indices, [maxResults], HTTP status codes) are
      [nat] or [Z].
    - [async] functions are computations that either return or throw, and that
      leave a trace of the observable events they caused (the HTTP requests and
      the [console.error] lines).  The remote services are a parameter of every
      function: a [Net] maps each request to what [fetch] yields for it, and
      fixes the order in which concurrent promises get their turn.
    - The built-in [encodeURIComponent] is a parameter too; it throws on the
      strings it cannot encode (those with an unpaired surrogate).  A URL is
      represented by the endpoint it addresses and by the text that is
      percent-encoded into it. *)

From Stdlib Require Import ZArith QArith Qround Qabs Qpower Lqa.
From stdpp Require Import base list strings pretty.

Local Open Scope Z_scope.

(** ** Data model *)

Inductive Source :=
| portlandmaps_api
| arcgis_geocoder
| internal_fallback.

Record PropertySuggestion := {
  label : string;
  value : option string;
  type : string;
  city : option string;
  county : option string
}.

Record AddressCandidate := {
  normalized_address : string;
  score : Q;
  property_id : option string;
  taxlot_id : option string;
  x_lon : Q;
  y_lat : Q;
  source : Source;
  raw : option PropertySuggestion
}.

Record ResolveAddressResult := {
  candidates : list AddressCandidate;
  query : string;
  max_results : Z;
  bbox : option (list Q)
}.

(** The JSON body of the suggestion endpoint: [{candidates: [...]}], where the
    member may be missing or [null]. *)
Module Suggest.
Record Data := { candidates : option (list PropertySuggestion) }.
End Suggest.

(** The JSON body of either ArcGIS [findAddressCandidates] endpoint. *)
Module ArcGIS.
Record Location := { x : Q; y : Q }.
Record Candidate := { location : Location; score : Q }.
Record Data := { candidates : option (list Candidate) }.
End ArcGIS.

(** What the geocoding helpers resolve to when they find a match. *)
Module Geocode.
Record Result := { x : Q; y : Q; score : Q }.
End Geocode.

(** ** HTTP and the remote services *)

(** [response.json()] either resolves to the decoded body or rejects. *)
Inductive Body (A : Type) :=
| Malformed
| Json (data : A).
Arguments Malformed {A}.
Arguments Json {A} data.

Record Response (A : Type) := {
  ok : bool;
  status : Z;
  body : Body A
}.
Arguments ok {A} _.
Arguments status {A} _.
Arguments body {A} _.

(** [fetch(url)] either resolves to a response or rejects (network failure). *)
Inductive Fetched (A : Type) :=
| Unreachable
| Resolved (response : Response A).
Arguments Unreachable {A}.
Arguments Resolved {A} response.

(** The remote services as one run of the client meets them: what [fetch]
    yields for each request (a request is named by the text that is
    percent-encoded into its URL), and [arrival], the order in which the
    answers to requests that are pending together arrive (see [interleave]). *)
Record Net := {
  suggest_service : string -> Z -> Fetched Suggest.Data;
  oregon_geocoder : string -> Fetched ArcGIS.Data;
  world_geocoder : string -> Fetched ArcGIS.Data;
  arrival : list nat
}.

(** What the client can catch: the rejection of [fetch], the rejection of
    [response.json()], the [URIError] of [encodeURIComponent], and the errors
    the client throws itself. *)
Inductive Exn :=
| NetworkError
| SyntaxError
| URIError
| ApiRequestFailed (status : Z)
| FailedToResolveAddress (cause : Exn).

(** Observable events, in the order a computation causes them. *)
Inductive Event :=
| GET_suggest (query : string) (count : Z)
| GET_arcgisGeocoder (singleLine : string)
| GET_arcgisWorldGeocoder (singleLine : string)
| console_error (prefix : string) (error : Exn).

(** ** Asynchronous computations *)

Inductive Completion (A : Type) :=
| Returned (a : A)
| Thrown (e : Exn).
Arguments Returned {A} a.
Arguments Thrown {A} e.

Definition Async (A : Type) : Type := Completion A * list Event.

Definition completion {A} (m : Async A) : Completion A := fst m.
Definition trace {A} (m : Async A) : list Event := snd m.

Definition ret {A} (a : A) : Async A := (Returned a, []).

Definition throw {A} (e : Exn) : Async A := (Thrown e, []).

Definition emit (ev : Event) : Async unit := (Returned tt, [ev]).

Definition bind {A B} (m : Async A) (k : A -> Async B) : Async B :=
  match m with
  | (Returned a, t) => let '(r, t') := k a in (r, t ++ t')
  | (Thrown e, t) => (Thrown e, t)
  end.

Definition try_catch {A} (m : Async A) (handler : Exn -> Async A) : Async A :=
  match m with
  | (Returned a, t) => (Returned a, t)
  | (Thrown e, t) => let '(r, t') := handler e in (r, t ++ t')
  end.

#[global] Instance Async_ret : MRet Async := @ret.
#[global] Instance Async_bind : MBind Async := fun A B k m => bind m k.

(** [await fetch(url)]: the request is observed, then the service answers. *)
Definition fetch {A} (ev : Event) (answer : Fetched A) : Async (Response A) :=
  emit ev;;
  match answer with
  | Unreachable => throw NetworkError
  | Resolved response => ret response
  end.

(** [await response.json()] *)
Definition json {A} (response : Response A) : Async A :=
  match body response with
  | Malformed => throw SyntaxError
  | Json data => ret data
  end.

(** HTTP requests, as opposed to log lines. *)
Definition is_request (ev : Event) : bool :=
  match ev with console_error _ _ => false | _ => true end.

(** An [async] function runs without interruption up to its first [await] of
    something that is not settled yet.  Every [await] of the client waits,
    directly or through a helper, for the answer to a request: a call runs at
    once up to and including its first request, or to its end if it makes
    none.  [until_first_request] splits a trace there. *)
Fixpoint until_first_request (t : list Event) : list Event * list Event :=
  match t with
  | [] => ([], [])
  | ev :: t' =>
      if is_request ev then ([ev], t')
      else let '(now, later) := until_first_request t' in (ev :: now, later)
  end.

(** Suspended promises take turns: [turns] names the promise whose next event
    comes next; a turn given to a promise that has nothing left is skipped,
    and what remains when the turns are used up follows promise by promise.
    Every order in which the events of the promises can occur, each promise
    keeping its own order, is obtained for some [turns]. *)
Fixpoint interleave (turns : list nat) (branches : list (list Event)) : list Event :=
  match turns with
  | [] => concat branches
  | i :: turns' =>
      match branches !! i with
      | Some (ev :: evs) => ev :: interleave turns' (<[i := evs]> branches)
      | _ => interleave turns' branches
      end
  end.

(** The events of promises that are created one after the other and then
    awaited together: each runs up to its first request when it is created,
    and what the promises do after that is interleaved as the turns decide. *)
Definition join_traces (turns : list nat) (traces : list (list Event)) : list Event :=
  let runs := until_first_request <$> traces in
  concat (fst <$> runs) ++ interleave turns (snd <$> runs).

(** The values of the promises if all of them returned, the first rejection
    otherwise. *)
Fixpoint all_returned {A} (promises : list (Async A)) : Completion (list A) :=
  match promises with
  | [] => Returned []
  | p :: rest =>
      match completion p with
      | Returned a =>
          match all_returned rest with
          | Returned values => Returned (a :: values)
          | Thrown e => Thrown e
          end
      | Thrown e => Thrown e
      end
  end.

(** [Promise.all] over the promises that [map] created with an [async]
    callback: the join returns all the values, or rejects if one promise
    does; the events of the promises are joined as above. *)
Definition Promise_all {A} (turns : list nat) (promises : list (Async A))
  : Async (list A) :=
  (all_returned promises, join_traces turns (trace <$> promises)).

(** Unfolds the plumbing of a computation whose service answers are known. *)
Ltac run_async :=
  cbv [mbind mret Async_bind Async_ret bind ret throw emit try_catch fetch json
       completion trace fst snd]; simpl.

(** ** Numbers *)

(** The nearest integer, halves rounded to the even one. *)
Definition round_half_even (q : Q) : Z :=
  let f := Qfloor q in
  match (q - inject_Z f ?= 1 # 2)%Q with
  | Lt => f
  | Gt => f + 1
  | Eq => if Z.even f then f else f + 1
  end.

(** The exponent [e] with [2^e <= q < 2^(e+1)], for a positive [q]. *)
Definition binade (q : Q) : Z :=
  let e := Z.log2 (Qnum q) - Z.log2 (Zpos (Qden q)) in
  if Qle_bool (2 ^ e) q then e else e - 1.

(** Rounding to binary64: the nearest number with a 53-bit significand, ties
    to the even significand.  The exponent range is not modelled; the sums and
    halves the client computes (a double plus an integer between 50 and 100,
    and half of that) neither overflow nor fall into the subnormal range. *)
Definition to_double (q : Q) : Q :=
  match Qnum q with
  | Z0 => 0
  | Zpos _ =>
      let ulp := (2 ^ (binade q - 52))%Q in
      inject_Z (round_half_even (q / ulp)) * ulp
  | Zneg _ =>
      let ulp := (2 ^ (binade (- q) - 52))%Q in
      - (inject_Z (round_half_even (- q / ulp)) * ulp)
  end%Q.

(** [x + y] and [x / y] on doubles. *)
Definition double_add (x y : Q) : Q := to_double (x + y).
Definition double_div (x y : Q) : Q := to_double (x / y).

(** [Math.round]: the nearest integer, halves rounded up. *)
Definition Math_round (q : Q) : Q := inject_Z (Qfloor (q + (1 # 2))).

(** [x >= lo && x <= hi] *)
Definition between (lo hi v : Q) : bool := Qle_bool lo v && Qle_bool v hi.

(** [array.slice(0, end)] for an integer [end]: a negative [end] counts from
    the end of the array. *)
Definition slice0 {A} (end_ : Z) (l : list A) : list A :=
  let len := Z.of_nat (length l) in
  let stop := if end_ <? 0 then Z.max (len + end_) 0 else Z.min end_ len in
  take (Z.to_nat stop) l.

(** ** The client *)

Definition PORTLAND_SUFFIX : string := ", Portland, OR".

(** Portland center, the coordinates a candidate keeps when nothing geocodes
    its address. *)
Definition FALLBACK_X_LON : Q := - (1226765 # 10000).
Definition FALLBACK_Y_LAT : Q := 455155 # 10000.

Section Client.

(** The built-in [encodeURIComponent]: the encoded text, or nothing where the
    built-in throws a [URIError]. *)
Variable encodeURIComponent : string -> option string.

Definition uriComponent (text : string) : Async string :=
  match encodeURIComponent text with
  | Some encoded => ret encoded
  | None => throw URIError
  end.

(** The shared tail of both geocoding helpers: take the first candidate of a
    decoded body, if there is one. *)
Definition first_candidate (data : ArcGIS.Data) : option Geocode.Result :=
  match ArcGIS.candidates data with
  | Some (candidate :: _) =>
      Some {| Geocode.x := ArcGIS.x (ArcGIS.location candidate);
              Geocode.y := ArcGIS.y (ArcGIS.location candidate);
              Geocode.score := ArcGIS.score candidate |}
  | _ => None
  end.

Definition geocodeWithWorldGeocoder (net : Net) (address : string)
  : Async (option Geocode.Result) :=
  try_catch
    (let singleLine := address +:+ PORTLAND_SUFFIX in
     uriComponent singleLine;;
     response ← fetch (GET_arcgisWorldGeocoder singleLine)
                       (world_geocoder net singleLine);
     if negb (ok response) then ret None
     else
       data ← json response;
       match first_candidate data with
       | Some result => ret (Some result)
       | None => ret None
       end)
    (fun error =>
       emit (console_error "ArcGIS World geocoder error:" error);;
       ret None).

(** The World geocoder is called in return position, inside the [try] block
    and inside the handler alike; as [geocodeWithWorldGeocoder] never throws
    (lemma [geocodeWithWorldGeocoder_completion]), the handler only ever runs
    for a failure of the Oregon request itself or of the building of its URL. *)
Definition geocodeWithArcGIS (net : Net) (address : string)
  : Async (option Geocode.Result) :=
  try_catch
    (let singleLine := address +:+ PORTLAND_SUFFIX in
     uriComponent singleLine;;
     response ← fetch (GET_arcgisGeocoder singleLine)
                       (oregon_geocoder net singleLine);
     if negb (ok response) then geocodeWithWorldGeocoder net address
     else
       data ← json response;
       match first_candidate data with
       | Some result => ret (Some result)
       | None => geocodeWithWorldGeocoder net address
       end)
    (fun error =>
       emit (console_error "ArcGIS Oregon geocoder error:" error);;
       geocodeWithWorldGeocoder net address).

(** [Math.max(100 - (index * 5), 50)] *)
Definition baseScore (index : nat) : Z := Z.max (100 - Z.of_nat index * 5) 50.

(** [suggestion.value || undefined]: the empty string is falsy. *)
Definition truthy_string (s : option string) : option string :=
  match s with
  | Some EmptyString => None
  | _ => s
  end.

(** The body of the callback of [suggestions.map] inside [resolveAddress],
    after its [await]: the candidate assembled from a suggestion, its position
    and what geocoding found. *)
Definition buildCandidate (includeRaw : bool) (index : nat)
    (suggestion : PropertySuggestion) (geocodeResult : option Geocode.Result)
  : AddressCandidate :=
  let baseScore := baseScore index in
  let x_lon0 := FALLBACK_X_LON in
  let y_lat0 := FALLBACK_Y_LAT in
  let score0 := inject_Z baseScore in
  let source0 := internal_fallback in
  let '(x_lon1, y_lat1, score1, source1) :=
    match geocodeResult with
    | Some g =>
        (Geocode.x g, Geocode.y g,
         Math_round (double_div (double_add (inject_Z baseScore) (Geocode.score g)) 2),
         arcgis_geocoder)
    | None => (x_lon0, y_lat0, score0, portlandmaps_api)
    end in
  {| normalized_address := label suggestion;
     score := score1;
     property_id := truthy_string (value suggestion);
     taxlot_id := None;
     x_lon := x_lon1;
     y_lat := y_lat1;
     source := source1;
     raw := if includeRaw then Some suggestion else None |}.

(** The callback of [suggestions.map] inside [resolveAddress]. *)
Definition toCandidate (net : Net) (includeRaw : bool)
    (index : nat) (suggestion : PropertySuggestion) : Async AddressCandidate :=
  geocodeResult ← geocodeWithArcGIS net (label suggestion);
  ret (buildCandidate includeRaw index suggestion geocodeResult).

(** The predicate of [candidates.filter] inside [resolveAddress]. *)
Definition in_bbox (minLon minLat maxLon maxLat : Q) (c : AddressCandidate) : bool :=
  between minLon maxLon (x_lon c) && between minLat maxLat (y_lat c).

(** [if (bbox && bbox.length === 4) { ... filter ... }] *)
Definition bbox_filter (bbox : option (list Q)) (cs : list AddressCandidate)
  : list AddressCandidate :=
  match bbox with
  | Some [minLon; minLat; maxLon; maxLat] =>
      filter (fun c => in_bbox minLon minLat maxLon maxLat c) cs
  | _ => cs
  end.

(** [data.candidates || []] *)
Definition suggestions_of (data : Suggest.Data) : list PropertySuggestion :=
  default [] (Suggest.candidates data).

Definition resolveAddress (net : Net) (query : string) (maxResults : Z)
    (bbox : option (list Q)) (includeRaw : bool) : Async ResolveAddressResult :=
  try_catch
    (uriComponent query;;
     response ← fetch (GET_suggest query maxResults)
                       (suggest_service net query maxResults);
     if negb (ok response) then throw (ApiRequestFailed (status response))
     else
       data ← json response;
       let suggestions := suggestions_of data in
       let candidatePromises := imap (toCandidate net includeRaw) suggestions in
       candidates ← Promise_all (arrival net) candidatePromises;
       let candidates := bbox_filter bbox candidates in
       let candidates := slice0 maxResults candidates in
       ret {| candidates := candidates;
              query := query;
              max_results := maxResults;
              bbox := bbox |})
    (fun error => throw (FailedToResolveAddress error)).

(** ** The other client methods

    These methods and the tool handler raise errors of their own around the
    ones above; [ToolError] records how an error was wrapped, and [Task] is
    the computation type of the methods that raise them. *)

Inductive ToolError :=
| Cause (e : Exn)
| TypeError
| FailedToSearchAddress (cause : ToolError)
| FailedToGetPropertyDetails (cause : ToolError)
| FailedToGetZoningInfo (cause : ToolError)
| FailedToGetPermitHistory (cause : ToolError)
| FailedToGetPropertyTaxInfo (cause : ToolError)
| FailedToGetPropertyInfo (cause : ToolError)
| UnknownTool (name : string).

Inductive Settled (A : Type) :=
| Fulfilled (a : A)
| Rejected (e : ToolError).
#[global] Arguments Fulfilled {A} a.
#[global] Arguments Rejected {A} e.

Definition Task (A : Type) : Type := Settled A * list Event.

Definition settled {A} (t : Task A) : Settled A := fst t.
Definition events {A} (t : Task A) : list Event := snd t.

Definition fulfil {A} (a : A) : Task A := (Fulfilled a, []).

Definition reject {A} (e : ToolError) : Task A := (Rejected e, []).

Definition task_bind {A B} (t : Task A) (k : A -> Task B) : Task B :=
  match t with
  | (Fulfilled a, evs) => let '(r, evs') := k a in (r, evs ++ evs')
  | (Rejected e, evs) => (Rejected e, evs)
  end.

Definition task_catch {A} (t : Task A) (handler : ToolError -> Task A) : Task A :=
  match t with
  | (Fulfilled a, evs) => (Fulfilled a, evs)
  | (Rejected e, evs) => let '(r, evs') := handler e in (r, evs ++ evs')
  end.

(** [await] of a computation of the first kind. *)
Definition await {A} (m : Async A) : Task A :=
  match m with
  | (Returned a, evs) => (Fulfilled a, evs)
  | (Thrown e, evs) => (Rejected (Cause e), evs)
  end.

#[global] Instance Task_ret : MRet Task := @fulfil.
#[global] Instance Task_bind : MBind Task := fun A B k t => task_bind t k.

(** [for (let i = first; i < first + count; i++) body]: the loop threads its
    state through the iterations and stops at the first one that throws. *)
Fixpoint for_range {S} (first count : nat) (body : nat -> S -> Task S) (s : S)
  : Task S :=
  match count with
  | O => fulfil s
  | Datatypes.S count' =>
      s' ← body first s;
      for_range (Datatypes.S first) count' body s'
  end.

(** The line feed and the double quote of the message templates. *)
Definition newline : string := String (Ascii.ascii_of_nat 10) "".
Definition dquote : string := String (Ascii.ascii_of_nat 34) "".

Definition baseUrl : string := "https://www.portlandmaps.com".
Definition odUrl : string := baseUrl +:+ "/od/rest/services".

Definition addDisclaimer (data : string) : string :=
  let disclaimer :=
    newline +:+ newline +:+ "---" +:+ newline +:+
    "**Disclaimer:** This is an unofficial use of Portland Maps data. " +:+
    "For official information, please visit https://www.portlandmaps.com. " +:+
    "Consider supporting the City of Portland's mapping services." +:+ newline +:+
    "Data provided by the City of Portland - https://www.portlandmaps.com" in
  data +:+ disclaimer.

Definition searchAddress (net : Net) (address : string)
  : Task (list PropertySuggestion) :=
  task_catch
    (await (uriComponent address);;
     response ← await (fetch (GET_suggest address 10)
                             (suggest_service net address 10));
     if negb (ok response)
     then reject (Cause (ApiRequestFailed (status response)))
     else
       data ← await (json response);
       fulfil (suggestions_of data))
    (fun error => reject (FailedToSearchAddress error)).

Definition getPropertyDetails (propertyId : string) : Task string :=
  task_catch
    (encoded ← await (uriComponent propertyId);
     let url := baseUrl +:+ "/detail.cfm?propertyid=" +:+ encoded in
     let info :=
       ("Property Details for ID: " +:+ propertyId +:+ newline +:+ newline) +:+
       ("To view full property details, visit:" +:+ newline +:+ url +:+ newline +:+ newline) +:+
       ("For programmatic access, use the Portland Maps OpenData API:" +:+ newline) +:+
       (odUrl +:+ "/COP_OpenData_Property/MapServer" +:+ newline +:+ newline) +:+
       ("This can be queried for specific property information including:" +:+ newline) +:+
       ("- Property boundaries" +:+ newline) +:+
       ("- Zoning information" +:+ newline) +:+
       ("- Tax lot details" +:+ newline) +:+
       "- Property characteristics" in
     fulfil (addDisclaimer info))
    (fun error => reject (FailedToGetPropertyDetails error)).

Definition getZoningInfo (net : Net) (address : string) : Task string :=
  task_catch
    (suggestions ← searchAddress net address;
     if (length suggestions =? 0)%nat
     then fulfil (addDisclaimer ("No results found for address: " +:+ address))
     else
       let result :=
         "Zoning Information Search Results for: " +:+ address +:+ newline +:+ newline in
       let result :=
         result +:+ ("Found " +:+ pretty (length suggestions) +:+
                     " matching locations:" +:+ newline +:+ newline) in
       result ← for_range 0 (Nat.min (length suggestions) 5)
         (fun i result =>
            match suggestions !! i with
            | None => reject TypeError
            | Some suggestion =>
                let result :=
                  result +:+ (pretty (i + 1)%nat +:+ ". " +:+ label suggestion +:+ newline) in
                let result :=
                  result +:+ ("   Type: " +:+ type suggestion +:+ newline) in
                result ←
                  match truthy_string (value suggestion) with
                  | Some value =>
                      let result :=
                        result +:+ ("   Property ID: " +:+ value +:+ newline) in
                      encoded ← await (uriComponent value);
                      fulfil (result +:+ ("   View details: " +:+ baseUrl +:+
                                          "/detail.cfm?propertyid=" +:+
                                          encoded +:+ newline))
                  | None => fulfil result
                  end;
                fulfil (result +:+ newline)
            end)
         result;
       let result :=
         result +:+ (newline +:+ "To view zoning regulations and maps, visit:" +:+ newline) in
       let result :=
         result +:+ ("https://www.portlandmaps.com/bps/zoning/" +:+ newline +:+ newline) in
       let result := result +:+ ("For zoning code details, see:" +:+ newline) in
       let result := result +:+ ("https://www.portland.gov/bps/zoning" +:+ newline) in
       fulfil (addDisclaimer result))
    (fun error => reject (FailedToGetZoningInfo error)).

Definition getPermitHistory (net : Net) (address : string) : Task string :=
  task_catch
    (suggestions ← searchAddress net address;
     if (length suggestions =? 0)%nat
     then fulfil (addDisclaimer ("No results found for address: " +:+ address))
     else
       match suggestions !! 0%nat with
       | None => reject TypeError
       | Some topMatch =>
           let result :=
             "Permit History Information for: " +:+ address +:+ newline +:+ newline in
           let result :=
             result +:+ ("Best Match: " +:+ label topMatch +:+ newline) in
           let result :=
             result +:+ ("Type: " +:+ type topMatch +:+ newline +:+ newline) in
           result ←
             match truthy_string (value topMatch) with
             | Some value =>
                 let result :=
                   result +:+ ("To view permit history, visit:" +:+ newline) in
                 encoded ← await (uriComponent value);
                 let result :=
                   result +:+ (baseUrl +:+ "/detail.cfm?propertyid=" +:+
                               encoded +:+ newline +:+ newline) in
                 let result :=
                   result +:+ ("Then select the " +:+ dquote +:+ "Permits" +:+ dquote +:+
                               " tab to view:" +:+ newline) in
                 let result := result +:+ ("- Building permits" +:+ newline) in
                 let result := result +:+ ("- Land use reviews" +:+ newline) in
                 let result := result +:+ ("- Environmental reviews" +:+ newline) in
                 fulfil (result +:+ ("- Historic permits" +:+ newline +:+ newline))
             | None => fulfil result
             end;
           let result :=
             result +:+ ("For general permit information search:" +:+ newline) in
           let result :=
             result +:+ ("https://www.portlandmaps.com/permits/" +:+ newline) in
           fulfil (addDisclaimer result)
       end)
    (fun error => reject (FailedToGetPermitHistory error)).

Definition getPropertyTaxInfo (net : Net) (address : string) : Task string :=
  task_catch
    (suggestions ← searchAddress net address;
     if (length suggestions =? 0)%nat
     then fulfil (addDisclaimer ("No results found for address: " +:+ address))
     else
       match suggestions !! 0%nat with
       | None => reject TypeError
       | Some topMatch =>
           let result :=
             "Property Tax Information for: " +:+ address +:+ newline +:+ newline in
           let result :=
             result +:+ ("Best Match: " +:+ label topMatch +:+ newline) in
           let result :=
             result +:+ ("Type: " +:+ type topMatch +:+ newline +:+ newline) in
           result ←
             match truthy_string (value topMatch) with
             | Some value =>
                 let result :=
                   result +:+ ("To view property tax information, visit:" +:+ newline) in
                 encoded ← await (uriComponent value);
                 let result :=
                   result +:+ (baseUrl +:+ "/detail.cfm?propertyid=" +:+
                               encoded +:+ newline +:+ newline) in
                 let result :=
                   result +:+ ("Then select the " +:+ dquote +:+ "Assessment & Taxation" +:+
                               dquote +:+ " tab to view:" +:+ newline) in
                 let result := result +:+ ("- Assessed value" +:+ newline) in
                 let result := result +:+ ("- Real market value" +:+ newline) in
                 let result := result +:+ ("- Property tax amount" +:+ newline) in
                 fulfil (result +:+ ("- Tax account information" +:+ newline +:+ newline))
             | None => fulfil result
             end;
           let result :=
             result +:+ ("For property tax assessment information:" +:+ newline) in
           let result :=
             result +:+ ("https://multco.us/assessment-taxation" +:+ newline) in
           fulfil (addDisclaimer result)
       end)
    (fun error => reject (FailedToGetPropertyTaxInfo error)).

Definition getPropertyInfo (net : Net) (address : string) : Task string :=
  task_catch
    (suggestions ← searchAddress net address;
     if (length suggestions =? 0)%nat
     then fulfil (addDisclaimer ("No results found for address: " +:+ address))
     else
       let result :=
         "Property Information for: " +:+ address +:+ newline +:+ newline in
       let result :=
         result +:+ ("Search Results (" +:+ pretty (length suggestions) +:+
                     " found):" +:+ newline +:+ newline) in
       result ← for_range 0 (Nat.min (length suggestions) 3)
         (fun i result =>
            match suggestions !! i with
            | None => reject TypeError
            | Some suggestion =>
                let result :=
                  result +:+ (pretty (i + 1)%nat +:+ ". " +:+ label suggestion +:+ newline) in
                let result :=
                  result +:+ ("   Type: " +:+ type suggestion +:+ newline) in
                result ←
                  match truthy_string (value suggestion) with
                  | Some value =>
                      let result :=
                        result +:+ ("   Property ID: " +:+ value +:+ newline) in
                      encoded ← await (uriComponent value);
                      let detailUrl :=
                        baseUrl +:+ "/detail.cfm?propertyid=" +:+ encoded in
                      let result :=
                        result +:+ ("   View full details: " +:+ detailUrl +:+
                                    newline +:+ newline) in
                      let result :=
                        result +:+ ("   Available information at this URL includes:" +:+ newline) in
                      let result :=
                        result +:+ ("   - Property details (owner, lot size, year built)" +:+ newline) in
                      let result :=
                        result +:+ ("   - Zoning information" +:+ newline) in
                      let result :=
                        result +:+ ("   - Assessment & taxation data" +:+ newline) in
                      let result :=
                        result +:+ ("   - Permit history" +:+ newline) in
                      let result :=
                        result +:+ ("   - Sales history" +:+ newline) in
                      fulfil (result +:+ ("   - Aerial photos and maps" +:+ newline))
                  | None => fulfil result
                  end;
                fulfil (result +:+ newline)
            end)
         result;
       let result := result +:+ (newline +:+ "Additional Resources:" +:+ newline) in
       let result :=
         result +:+ ("- Zoning Maps: https://www.portlandmaps.com/bps/zoning/" +:+ newline) in
       let result :=
         result +:+ ("- Permit Search: https://www.portlandmaps.com/permits/" +:+ newline) in
       let result :=
         result +:+ ("- GIS Data: https://gis-pdx.opendata.arcgis.com/" +:+ newline) in
       fulfil (addDisclaimer result))
    (fun error => reject (FailedToGetPropertyInfo error)).

(** ** The tool handler *)

(** The [arguments] object of a tool call; a tool reads the members it knows. *)
Record ToolArguments := {
  arg_query : string;
  arg_max_results : option Z;
  arg_bbox : option (list Q);
  arg_include_raw : option bool;
  arg_address : string
}.

(** The text of a tool result: the JSON rendering of a resolution result, the
    text a client method returned, or [Error: ] followed by the message of
    the error that was caught. *)
Inductive ToolText :=
| JsonText (result : ResolveAddressResult)
| InfoText (text : string)
| ErrorText (error : ToolError).

Record CallToolResult := {
  content : ToolText;
  isError : bool
}.

(** The handler registered for [CallToolRequestSchema]. *)
Definition callTool (net : Net) (name : string) (args : ToolArguments)
  : Task CallToolResult :=
  task_catch
    (if String.eqb name "resolve_address" then
       let query := arg_query args in
       let max_results := default 10 (arg_max_results args) in
       let bbox := arg_bbox args in
       let include_raw := default false (arg_include_raw args) in
       result ← await (resolveAddress net query max_results bbox include_raw);
       fulfil {| content := JsonText result; isError := false |}
     else if String.eqb name "get_property_info" then
       info ← getPropertyInfo net (arg_address args);
       fulfil {| content := InfoText info; isError := false |}
     else if String.eqb name "get_zoning_info" then
       info ← getZoningInfo net (arg_address args);
       fulfil {| content := InfoText info; isError := false |}
     else if String.eqb name "get_permit_history" then
       info ← getPermitHistory net (arg_address args);
       fulfil {| content := InfoText info; isError := false |}
     else if String.eqb name "get_tax_info" then
       info ← getPropertyTaxInfo net (arg_address args);
       fulfil {| content := InfoText info; isError := false |}
     else reject (UnknownTool name))
    (fun error => fulfil {| content := ErrorText error; isError := true |}).

End Client.

(** Unfolds the plumbing of a task, with and without evaluating it. *)
Ltac run_task :=
  cbv [mbind mret Task_bind Task_ret task_bind task_catch fulfil reject await
       Async_bind Async_ret bind ret throw emit fetch json settled events
       fst snd]; simpl.

Ltac step_task :=
  cbv beta iota zeta delta
    [mbind mret Task_bind Task_ret task_bind task_catch fulfil reject].

(** ** What the remote services answered *)

(** What one geocoder call yields to the helper that made it: the first
    candidate of a 2xx response whose body decodes, nothing otherwise. *)
Definition tier (answer : Fetched ArcGIS.Data) : option Geocode.Result :=
  match answer with
  | Resolved {| ok := true; body := Json data |} => first_candidate data
  | _ => None
  end.

(** The call succeeded (2xx, decodable body) and listed at least one
    candidate, the first of which is [c]. *)
Definition answers_with (answer : Fetched ArcGIS.Data) (c : ArcGIS.Candidate) : Prop :=
  exists st others,
    answer = Resolved {| ok := true; status := st;
                         body := Json {| ArcGIS.candidates := Some (c :: others) |} |}.

(** The call failed: the request was rejected, the status was not 2xx, or the
    body could not be decoded. *)
Definition call_failed {A} (answer : Fetched A) : Prop :=
  match answer with
  | Unreachable => True
  | Resolved {| ok := false |} => True
  | Resolved {| ok := true; body := Malformed |} => True
  | Resolved {| ok := true; body := Json _ |} => False
  end.

(** The call succeeded and listed no candidate. *)
Definition answers_empty (answer : Fetched ArcGIS.Data) : Prop :=
  exists st data,
    answer = Resolved {| ok := true; status := st; body := Json data |} /\
    (ArcGIS.candidates data = None \/ ArcGIS.candidates data = Some []).

Definition as_result (c : ArcGIS.Candidate) : Geocode.Result :=
  {| Geocode.x := ArcGIS.x (ArcGIS.location c);
     Geocode.y := ArcGIS.y (ArcGIS.location c);
     Geocode.score := ArcGIS.score c |}.

(** The error a [fetch] and the decoding of its answer throw, if any.  A
    non-2xx status and an empty list are not errors. *)
Definition fetch_error {A} (answer : Fetched A) : option Exn :=
  match answer with
  | Unreachable => Some NetworkError
  | Resolved {| ok := true; body := Malformed |} => Some SyntaxError
  | _ => None
  end.

(** What a helper catches when it builds the URL for [text] and fetches the
    answer: the error of the encoding, of the request or of the decoding. *)
Definition caught {A} (encodeURIComponent : string -> option string)
    (text : string) (answer : Fetched A) : option Exn :=
  match encodeURIComponent text with
  | None => Some URIError
  | Some _ => fetch_error answer
  end.

(** What the request for [text] yields to the helper: nothing if the URL
    cannot be built, and else what the answer yields. *)
Definition yields (encodeURIComponent : string -> option string)
    (text : string) (answer : Fetched ArcGIS.Data) : option Geocode.Result :=
  match encodeURIComponent text with
  | None => None
  | Some _ => tier answer
  end.

(** The request a helper makes for [text], if it can build the URL, and the
    line it logs, if it catches an error. *)
Definition requested (encodeURIComponent : string -> option string)
    (text : string) (request : Event) : list Event :=
  match encodeURIComponent text with
  | None => []
  | Some _ => [request]
  end.

Definition logged {A} (encodeURIComponent : string -> option string)
    (prefix text : string) (answer : Fetched A) : list Event :=
  match caught encodeURIComponent text answer with
  | Some error => [console_error prefix error]
  | None => []
  end.

(** What [geocodeWithArcGIS] resolves to, read off the two services. *)
Definition geocoded (encodeURIComponent : string -> option string)
    (net : Net) (address : string) : option Geocode.Result :=
  let singleLine := address +:+ PORTLAND_SUFFIX in
  match yields encodeURIComponent singleLine (oregon_geocoder net singleLine) with
  | Some g => Some g
  | None => yields encodeURIComponent singleLine (world_geocoder net singleLine)
  end.

(** The candidates all the callbacks of one [resolveAddress] call resolve to,
    in the order of the suggestions. *)
Definition enrich_all (encodeURIComponent : string -> option string)
    (net : Net) (includeRaw : bool)
    (suggestions : list PropertySuggestion) : list AddressCandidate :=
  imap (fun index suggestion =>
          buildCandidate includeRaw index suggestion
            (geocoded encodeURIComponent net (label suggestion)))
       suggestions.

Definition is_world_call (ev : Event) : bool :=
  match ev with GET_arcgisWorldGeocoder _ => true | _ => false end.

Definition is_oregon_call (ev : Event) : bool :=
  match ev with GET_arcgisGeocoder _ => true | _ => false end.

Definition is_suggest_call (ev : Event) : bool :=
  match ev with GET_suggest _ _ => true | _ => false end.

(** The first event of a geocoding resolution: its request to the Oregon
    geocoder or, when the URL of that request cannot be built, the line that
    logs the [URIError]. *)
Definition starts_resolution (ev : Event) : bool :=
  match ev with
  | GET_arcgisGeocoder _ => true
  | console_error prefix URIError =>
      String.eqb prefix "ArcGIS Oregon geocoder error:"
  | _ => false
  end.

(** Every geocoding resolution has exactly one such first event, so the
    resolutions a computation launched are counted by them. *)
Definition resolutions_launched (t : list Event) : nat :=
  length (filter (fun ev => starts_resolution ev) t).

(** [v] is the binary64 value of [x] (exponent range aside): zero for zero,
    and otherwise, with [2^e] the unit in the last place of the 53-bit
    significands of the binade of [x], the multiple [m * 2^e] nearest to [x],
    the one with the even [m] when two are equally near. *)
Definition rounds_to_double (x v : Q) : Prop :=
  (x == 0 /\ v == 0)%Q \/
  exists m e : Z,
    (2 ^ 52 * 2 ^ e <= Qabs x)%Q /\ (Qabs x < 2 ^ 53 * 2 ^ e)%Q /\
    (v == inject_Z m * 2 ^ e)%Q /\
    (Qabs (v - x) <= 2 ^ e / 2)%Q /\
    ((Qabs (v - x) == 2 ^ e / 2)%Q -> Z.even m = true).

(** The property identifiers the first [k] of the suggestions carry can all
    be put into a URL. *)
Definition ids_encode (encodeURIComponent : string -> option string)
    (k : nat) (suggestions : list PropertySuggestion) : Prop :=
  forall i suggestion id,
    (i < k)%nat ->
    suggestions !! i = Some suggestion ->
    truthy_string (value suggestion) = Some id ->
    is_Some (encodeURIComponent id).

(** The property identifier of the suggestion at position [i], if the
    suggestion has one, can be put into a URL; or it cannot. *)
Definition id_encodes (encodeURIComponent : string -> option string)
    (suggestions : list PropertySuggestion) (i : nat) : Prop :=
  forall suggestion id,
    suggestions !! i = Some suggestion ->
    truthy_string (value suggestion) = Some id ->
    is_Some (encodeURIComponent id).

Definition id_breaks (encodeURIComponent : string -> option string)
    (suggestions : list PropertySuggestion) (i : nat) : Prop :=
  exists suggestion id,
    suggestions !! i = Some suggestion /\
    truthy_string (value suggestion) = Some id /\
    encodeURIComponent id = None.

(** [outcome] is a fulfilment if [resolves] holds, and else the rejection
    with [error]. *)
Definition settles_as {A} (outcome : Settled A) (resolves : Prop)
    (error : ToolError) : Prop :=
  (resolves /\ exists a, outcome = Fulfilled a) \/
  (~ resolves /\ outcome = Rejected error).

(** How a text method that has searched settles: with the events of the
    search and nothing more; with the search's error wrapped once more if the
    search was rejected; and else with a text that ends with the disclaimer
    if the identifiers of the first [k] suggestions can be encoded, and with
    the wrapped [URIError] if one of them cannot. *)
Definition settles_after_search (encodeURIComponent : string -> option string)
    (k : nat) (wrap : ToolError -> ToolError)
    (search : Task (list PropertySuggestion)) (method : Task string) : Prop :=
  events method = events search /\
  match settled search with
  | Fulfilled suggestions =>
      (ids_encode encodeURIComponent k suggestions /\
       exists body, settled method = Fulfilled (addDisclaimer body)) \/
      (~ ids_encode encodeURIComponent k suggestions /\
       settled method = Rejected (wrap (Cause URIError)))
  | Rejected error => settled method = Rejected (wrap error)
  end.

(** ** Sample services

    Three addresses: the Oregon geocoder locates the first, only the World
    geocoder locates the second, and nothing locates the third.  The sample
    suggestion service lists all three whatever count it is asked for, and the
    Oregon geocoder answers the request for the third address before it
    answers the one for the second. *)

Definition answer200 {A} (data : A) : Fetched A :=
  Resolved {| ok := true; status := 200; body := Json data |}.

Definition answer503 {A} : Fetched A :=
  Resolved {| ok := false; status := 503; body := Malformed |}.

Definition suggestion_of (text id : string) : PropertySuggestion :=
  {| label := text; value := Some id; type := "address";
     city := Some "Portland"; county := None |}.

Definition sw_main : PropertySuggestion := suggestion_of "1234 SW MAIN ST" "R246278".
Definition se_main : PropertySuggestion := suggestion_of "1234 SE MAIN ST" "R150078".
Definition n_main : PropertySuggestion := suggestion_of "1234 N MAIN ST" "R310992".

Definition sw_main_match : ArcGIS.Candidate :=
  {| ArcGIS.location := {| ArcGIS.x := - (122689 # 1000); ArcGIS.y := 45516 # 1000 |};
     ArcGIS.score := 97 |}.

Definition se_main_match : ArcGIS.Candidate :=
  {| ArcGIS.location := {| ArcGIS.x := - (122653 # 1000); ArcGIS.y := 45513 # 1000 |};
     ArcGIS.score := 80 |}.

Definition sample_net : Net :=
  {| suggest_service := fun _ _ =>
       answer200 {| Suggest.candidates := Some [sw_main; se_main; n_main] |};
     oregon_geocoder := fun singleLine =>
       if String.eqb singleLine "1234 SW MAIN ST, Portland, OR"
       then answer200 {| ArcGIS.candidates := Some [sw_main_match] |}
       else answer503;
     world_geocoder := fun singleLine =>
       if String.eqb singleLine "1234 SE MAIN ST, Portland, OR"
       then answer200 {| ArcGIS.candidates := Some [se_main_match] |}
       else Unreachable;
     arrival := [2; 1]%nat |}.

(** A box around the inner east side: of the three sample addresses only the
    second lies inside. *)
Definition east_side : list Q :=
  [- (12266 # 100); 4550 # 100; - (12260 # 100); 4555 # 100]%Q.

(** The candidates of a finished call; none if it threw. *)
Definition returned_candidates (m : Async ResolveAddressResult) : list AddressCandidate :=
  match completion m with
  | Returned r => candidates r
  | Thrown _ => []
  end.

(** What the sample services make of the three sample addresses. *)
Definition sw_main_candidate : AddressCandidate :=
  {| normalized_address := "1234 SW MAIN ST"; score := 99;
     property_id := Some "R246278"; taxlot_id := None;
     x_lon := - (122689 # 1000); y_lat := 45516 # 1000;
     source := arcgis_geocoder; raw := None |}.

Definition se_main_candidate : AddressCandidate :=
  {| normalized_address := "1234 SE MAIN ST"; score := 88;
     property_id := Some "R150078"; taxlot_id := None;
     x_lon := - (122653 # 1000); y_lat := 45513 # 1000;
     source := arcgis_geocoder; raw := None |}.

Definition n_main_candidate : AddressCandidate :=
  {| normalized_address := "1234 N MAIN ST"; score := 90;
     property_id := Some "R310992"; taxlot_id := None;
     x_lon := - (1226765 # 10000); y_lat := 455155 # 10000;
     source := portlandmaps_api; raw := None |}.

(** An encoding that accepts every text, and one that throws on the texts
    that start with an unpaired surrogate (written here as the three bytes
    that stand for U+D800). *)
Definition identity_encoding (s : string) : option string := Some s.

Definition unpaired_surrogate : string :=
  String (Ascii.ascii_of_nat 237)
    (String (Ascii.ascii_of_nat 160) (String (Ascii.ascii_of_nat 128) "")).

Definition strict_encoding (s : string) : option string :=
  if String.prefix unpaired_surrogate s then None else Some s.

(** The sample geocoders behind a suggestion service that lists [listed]. *)
Definition listing_net (listed : option (list PropertySuggestion)) : Net :=
  {| suggest_service := fun _ _ => answer200 {| Suggest.candidates := listed |};
     oregon_geocoder := oregon_geocoder sample_net;
     world_geocoder := world_geocoder sample_net;
     arrival := [] |}.

(** A suggestion service that is down; no geocoder can be reached either. *)
Definition down_net : Net :=
  {| suggest_service := fun _ _ => answer503;
     oregon_geocoder := fun _ => Unreachable;
     world_geocoder := fun _ => Unreachable;
     arrival := [] |}.

(** A box that holds the three sample addresses and Portland center, and a
    box whose longitudes are swapped. *)
Definition metro_area : list Q := [- (123 # 1); 45 # 1; - (122 # 1); 46 # 1]%Q.
Definition swapped_box : list Q := [- (122 # 1); 45 # 1; - (123 # 1); 46 # 1]%Q.

(** The sample suggestions behind geocoders that cannot be reached. *)
Definition ungeocoded_net : Net :=
  {| suggest_service := suggest_service sample_net;
     oregon_geocoder := fun _ => Unreachable;
     world_geocoder := fun _ => Unreachable;
     arrival := [2; 0; 1]%nat |}.

(** A geocoder match whose score is the double just below one. *)
Definition faint_match : ArcGIS.Candidate :=
  {| ArcGIS.location := {| ArcGIS.x := - (122689 # 1000); ArcGIS.y := 45516 # 1000 |};
     ArcGIS.score := 9007199254740991 # 9007199254740992 |}.

(** How the handler reports the outcome of a text method: its text, or the
    error it rejected with, flagged as an error. *)
Definition reported (outcome : Settled string) : Settled CallToolResult :=
  match outcome with
  | Fulfilled text => Fulfilled {| content := InfoText text; isError := false |}
  | Rejected error => Fulfilled {| content := ErrorText error; isError := true |}
  end.

Definition TOOL_NAMES : list string :=
  ["resolve_address"; "get_property_info"; "get_zoning_info";
   "get_permit_history"; "get_tax_info"].

Definition sample_arguments : ToolArguments :=
  {| arg_query := "1234 MAIN ST"; arg_max_results := None; arg_bbox := None;
     arg_include_raw := None; arg_address := "1234 MAIN ST" |}.

(** Six suggestions, and the same six with another one in the last place. *)
Definition ne_main : PropertySuggestion := suggestion_of "1234 NE MAIN ST" "R111222".
Definition nw_main : PropertySuggestion := suggestion_of "1234 NW MAIN ST" "R333444".
Definition s_main : PropertySuggestion := suggestion_of "1234 S MAIN ST" "R555666".
Definition e_main : PropertySuggestion := suggestion_of "1234 E MAIN ST" "".

Definition six_listed : list PropertySuggestion :=
  [sw_main; se_main; n_main; ne_main; nw_main; s_main].
Definition six_listed' : list PropertySuggestion :=
  [sw_main; se_main; n_main; ne_main; nw_main; e_main].

(** A suggestion whose label cannot be encoded. *)
Definition broken_label : PropertySuggestion :=
  suggestion_of unpaired_surrogate "R777888".


(** ** Binary64 arithmetic *)

Lemma round_half_even_near t :
  (t - (1 # 2) <= inject_Z (round_half_even t))%Q /\
  (inject_Z (round_half_even t) <= t + (1 # 2))%Q.
Proof.
  unfold round_half_even.
  pose proof (Qfloor_le t) as Hlo. pose proof (Qlt_floor t) as Hhi.
  rewrite inject_Z_plus in Hhi. change (inject_Z 1) with 1%Q in Hhi.
  destruct (Qcompare_spec (t - inject_Z (Qfloor t)) (1 # 2)) as [E|E|E];
    try destruct (Z.even (Qfloor t));
    rewrite ?inject_Z_plus; change (inject_Z 1) with 1%Q; split; lra.
Qed.

Lemma round_half_even_tie t :
  (Qabs (inject_Z (round_half_even t) - t) == 1 # 2)%Q ->
  Z.even (round_half_even t) = true.
Proof.
  unfold round_half_even.
  pose proof (Qfloor_le t) as Hlo. pose proof (Qlt_floor t) as Hhi.
  rewrite inject_Z_plus in Hhi. change (inject_Z 1) with 1%Q in Hhi.
  destruct (Qcompare_spec (t - inject_Z (Qfloor t)) (1 # 2)) as [E|E|E].
  - destruct (Z.even (Qfloor t)) eqn:Heven; [intros _; exact Heven|].
    intros _. rewrite Z.even_add, Heven. reflexivity.
  - intros H. exfalso.
    rewrite Qabs_neg in H by lra. lra.
  - intros H. exfalso. rewrite inject_Z_plus in H.
    change (inject_Z 1) with 1%Q in H.
    rewrite Qabs_pos in H by lra. lra.
Qed.

Lemma two_to_pos e : (0 < 2 ^ e)%Q.
Proof. apply Qpower_0_lt. reflexivity. Qed.

Lemma two_to_plus a b : (2 ^ (a + b) == 2 ^ a * 2 ^ b)%Q.
Proof. apply Qpower_plus. discriminate. Qed.

Lemma two_to_Z a : 0 <= a -> (inject_Z (2 ^ a) == 2 ^ a)%Q.
Proof. intros. apply (Zpower_Qpower 2 a). assumption. Qed.

Lemma two_to_le a b : a <= b -> (2 ^ a <= 2 ^ b)%Q.
Proof.
  intros Hab. replace b with (a + (b - a)) by lia. rewrite two_to_plus.
  assert (1 <= 2 ^ (b - a))%Q as H1.
  { rewrite <- two_to_Z by lia. change 1%Q with (inject_Z 1).
    rewrite <- Zle_Qle. pose proof (Z.pow_pos_nonneg 2 (b - a)). lia. }
  pose proof (two_to_pos a). nra.
Qed.

Lemma binade_spec q :
  (0 < q)%Q -> (2 ^ binade q <= q)%Q /\ (q < 2 ^ (binade q + 1))%Q.
Proof.
  intros Hq. destruct q as [n d]. unfold binade. simpl Qnum. simpl Qden.
  assert (0 < n) as Hn by (unfold Qlt in Hq; simpl in Hq; lia).
  set (a := Z.log2 n). set (c := Z.log2 (Zpos d)).
  destruct (Z.log2_spec n Hn) as [Ha0 Ha1]. fold a in Ha0, Ha1.
  destruct (Z.log2_spec (Zpos d) eq_refl) as [Hc0 Hc1]. fold c in Hc0, Hc1.
  assert (0 <= a) as Hapos by apply Z.log2_nonneg.
  assert (0 <= c) as Hcpos by apply Z.log2_nonneg.
  assert (n # d == inject_Z n / inject_Z (Zpos d))%Q as Hq' by apply Qmake_Qdiv.
  assert (0 < inject_Z (Zpos d))%Q as Hd by reflexivity.
  set (N := inject_Z n) in *. set (D := inject_Z (Zpos d)) in *.
  assert (2 ^ a <= N)%Q as HN0.
  { rewrite <- two_to_Z by assumption. subst N. rewrite <- Zle_Qle. exact Ha0. }
  assert (N < 2 ^ (a + 1))%Q as HN1.
  { rewrite <- two_to_Z by lia. subst N. rewrite <- Zlt_Qlt.
    unfold Z.succ in Ha1. exact Ha1. }
  assert (2 ^ c <= D)%Q as HD0.
  { rewrite <- two_to_Z by assumption. subst D. rewrite <- Zle_Qle. exact Hc0. }
  assert (D < 2 ^ (c + 1))%Q as HD1.
  { rewrite <- two_to_Z by lia. subst D. rewrite <- Zlt_Qlt.
    unfold Z.succ in Hc1. exact Hc1. }
  assert (n # d < 2 ^ (a - c + 1))%Q as Hupper.
  { rewrite Hq'. apply Qlt_shift_div_r; [exact Hd|].
    eapply Qlt_le_trans; [exact HN1|].
    replace (a + 1) with ((a - c + 1) + c) by lia. rewrite two_to_plus.
    apply Qmult_le_l; [apply two_to_pos | exact HD0]. }
  assert (2 ^ (a - c - 1) <= n # d)%Q as Hlower.
  { rewrite Hq'. apply Qle_shift_div_l; [exact Hd|].
    eapply Qle_trans; [|exact HN0].
    replace a with ((a - c - 1) + (c + 1)) at 2 by lia. rewrite two_to_plus.
    apply Qmult_le_l; [apply two_to_pos | apply Qlt_le_weak; exact HD1]. }
  destruct (Qle_bool (2 ^ (a - c)) (n # d)) eqn:Hb.
  - apply Qle_bool_iff in Hb. split; assumption.
  - split; [exact Hlower|].
    replace (a - c - 1 + 1) with (a - c) by lia.
    apply Qnot_le_lt. intros H. apply Qle_bool_iff in H. congruence.
Qed.

(** The double of a positive number: its significand, the unit in its last
    place, and how far it lies from the number. *)
Lemma to_double_positive q :
  (0 < q)%Q ->
  let e := binade q - 52 in
  let m := round_half_even (q / 2 ^ e) in
  (to_double q == inject_Z m * 2 ^ e)%Q /\
  (2 ^ 52 * 2 ^ e <= q)%Q /\ (q < 2 ^ 53 * 2 ^ e)%Q /\
  (Qabs (inject_Z m * 2 ^ e - q) <= 2 ^ e / 2)%Q /\
  ((Qabs (inject_Z m * 2 ^ e - q) == 2 ^ e / 2)%Q -> Z.even m = true).
Proof.
  intros Hq e m.
  destruct (binade_spec q Hq) as [Hlo Hhi].
  pose proof (two_to_pos e) as Hu.
  assert (2 ^ binade q == 2 ^ 52 * 2 ^ e)%Q as Hb0.
  { rewrite <- two_to_plus. subst e.
    replace (52 + (binade q - 52)) with (binade q) by lia. reflexivity. }
  assert (2 ^ (binade q + 1) == 2 ^ 53 * 2 ^ e)%Q as Hb1.
  { rewrite <- two_to_plus. subst e.
    replace (53 + (binade q - 52)) with (binade q + 1) by lia. reflexivity. }
  set (u := (2 ^ e)%Q) in *. set (t := (q / u)%Q) in *.
  assert (q == t * u)%Q as Hqt by (subst t; field; lra).
  destruct (round_half_even_near t) as [Hm0 Hm1]. fold m in Hm0, Hm1.
  assert (inject_Z m * u - q == (inject_Z m - t) * u)%Q as Hdiff
    by (rewrite Hqt at 1; ring).
  assert (Qabs (inject_Z m * u - q) == Qabs (inject_Z m - t) * u)%Q as Habs.
  { rewrite Hdiff, Qabs_Qmult, (Qabs_pos u) by lra. reflexivity. }
  split; [|split; [|split; [|split]]].
  - unfold to_double. subst t u m e.
    destruct q as [[|n|n] d]; try (exfalso; revert Hq; clear; discriminate).
    cbn [Qnum]. reflexivity.
  - rewrite <- Hb0. exact Hlo.
  - rewrite <- Hb1. exact Hhi.
  - rewrite Habs.
    assert (u / 2 == (1 # 2) * u)%Q as -> by field.
    apply Qmult_le_compat_r; [|lra].
    apply Qabs_Qle_condition. split; lra.
  - intros Htie. rewrite Habs in Htie. apply round_half_even_tie. fold m.
    assert (u / 2 == (1 # 2) * u)%Q as Hhalf by field.
    rewrite Hhalf in Htie.
    apply (Qmult_inj_r _ _ u); [lra | exact Htie].
Qed.

Lemma to_double_opp q : (to_double q == - to_double (- q))%Q.
Proof.
  unfold to_double. destruct q as [[|n|n] d].
  - reflexivity.
  - change (Qnum (- (Z.pos n # d))) with (Z.neg n). cbv iota. cbn [Qnum].
    change (- - (Z.pos n # d))%Q with (Z.pos n # d). ring.
  - change (Qnum (- (Z.neg n # d))) with (Z.pos n). cbv iota. cbn [Qnum].
    reflexivity.
Qed.

Lemma to_double_rounds x : rounds_to_double x (to_double x).
Proof.
  destruct (Q_dec x 0) as [[Hneg|Hpos]|Hzero].
  - right.
    assert (0 < - x)%Q as Hq by lra.
    destruct (to_double_positive (- x) Hq) as (Hv & Hlo & Hhi & Herr & Htie).
    set (e := binade (- x) - 52) in *.
    set (m := round_half_even (- x / 2 ^ e)) in *.
    assert (to_double x == inject_Z (- m) * 2 ^ e)%Q as Hv'.
    { rewrite inject_Z_opp, to_double_opp, Hv. ring. }
    assert (Qabs (to_double x - x) == Qabs (inject_Z m * 2 ^ e - - x))%Q as Hd.
    { rewrite Hv', inject_Z_opp, <- Qabs_opp. apply Qabs_wd. ring. }
    exists (- m), e. rewrite (Qabs_neg x) by lra.
    split; [exact Hlo|]. split; [exact Hhi|]. split; [exact Hv'|].
    rewrite Hd. split; [exact Herr|].
    intros H. rewrite Z.even_opp. exact (Htie H).
  - right.
    destruct (to_double_positive x Hpos) as (Hv & Hlo & Hhi & Herr & Htie).
    set (e := binade x - 52) in *.
    set (m := round_half_even (x / 2 ^ e)) in *.
    exists m, e. rewrite (Qabs_pos x) by lra.
    split; [exact Hlo|]. split; [exact Hhi|]. split; [exact Hv|].
    rewrite Hv. split; [exact Herr|exact Htie].
  - left. split; [exact Hzero|].
    unfold to_double. destruct x as [[|n|n] d]; try discriminate. reflexivity.
Qed.

(** Below 256 a double lies within [2^-46] of the number it rounds. *)
Lemma to_double_small x :
  (0 < x)%Q -> (x < 256)%Q -> (Qabs (to_double x - x) <= 2 ^ (-46))%Q.
Proof.
  intros Hpos Hlt.
  destruct (to_double_positive x Hpos) as (Hv & Hlo & _ & Herr & _).
  set (e := binade x - 52) in *. rewrite Hv.
  eapply Qle_trans; [exact Herr|].
  assert (e <= -45) as He.
  { destruct (Z_le_gt_dec e (-45)) as [H|H]; [exact H|exfalso].
    pose proof (two_to_le (-44) e ltac:(lia)) as Hmono.
    assert (2 ^ 52 * 2 ^ (-44) == 256)%Q as H256 by reflexivity.
    pose proof (two_to_pos e). 
    assert (2 ^ 52 * 2 ^ (-44) <= 2 ^ 52 * 2 ^ e)%Q.
    { apply Qmult_le_l; [reflexivity|exact Hmono]. }
    lra. }
  pose proof (two_to_le e (-45) He) as Hmono.
  assert (2 ^ (-45) / 2 == 2 ^ (-46))%Q as <- by reflexivity.
  assert (forall a, a / 2 == a * (1 # 2))%Q as Hhalf by (intros; field).
  rewrite !Hhalf. lra.
Qed.

(** ** The geocoding helpers *)

Lemma tier_answers_with answer c :
  answers_with answer c -> tier answer = Some (as_result c).
Proof. intros (st & others & ->). reflexivity. Qed.

Lemma tier_Some_answers_with answer g :
  tier answer = Some g -> exists c, answers_with answer c /\ g = as_result c.
Proof.
  destruct answer as [|[[] st [|[[[|c cs]|]]]]]; simpl; try discriminate.
  intros [= <-]. exists c. split; [|reflexivity]. by exists st, cs.
Qed.

Lemma tier_None answer :
  tier answer = None <-> call_failed answer \/ answers_empty answer.
Proof.
  split.
  - destruct answer as [|[[] st [|[[[|c cs]|]]]]]; simpl; try discriminate;
      intros _; try (left; exact I); right; eexists _, _; split; eauto.
  - intros [Hf | (st & data & -> & [H | H])].
    + by destruct answer as [|[[] st [|d]]].
    + simpl. unfold first_candidate. by rewrite H.
    + simpl. unfold first_candidate. by rewrite H.
Qed.

Lemma geocodeWithWorldGeocoder_completion enc net address :
  completion (geocodeWithWorldGeocoder enc net address)
  = Returned (yields enc (address +:+ PORTLAND_SUFFIX)
                (world_geocoder net (address +:+ PORTLAND_SUFFIX))).
Proof.
  unfold geocodeWithWorldGeocoder, uriComponent, yields.
  destruct (enc _); [|reflexivity].
  destruct (world_geocoder net _) as [|[[] st [|data]]]; run_async; try reflexivity.
  by destruct (first_candidate data).
Qed.

Lemma geocodeWithWorldGeocoder_trace enc net address :
  let singleLine := address +:+ PORTLAND_SUFFIX in
  trace (geocodeWithWorldGeocoder enc net address)
  = requested enc singleLine (GET_arcgisWorldGeocoder singleLine) ++
    logged enc "ArcGIS World geocoder error:" singleLine
      (world_geocoder net singleLine).
Proof.
  unfold geocodeWithWorldGeocoder, uriComponent, requested, logged, caught.
  destruct (enc _); [|reflexivity].
  destruct (world_geocoder net _) as [|[[] st [|data]]]; run_async;
    try destruct (first_candidate data); reflexivity.
Qed.

Lemma geocodeWithArcGIS_completion enc net address :
  completion (geocodeWithArcGIS enc net address)
  = Returned (geocoded enc net address).
Proof.
  pose proof (geocodeWithWorldGeocoder_completion enc net address) as Hw.
  unfold geocodeWithArcGIS, geocoded, uriComponent, yields in *.
  destruct (geocodeWithWorldGeocoder enc net address) as [w tw];
    simpl in Hw; subst w.
  destruct (enc _); [|reflexivity].
  destruct (oregon_geocoder net _) as [|[[] st [|data]]]; run_async; try reflexivity.
  destruct (first_candidate data); reflexivity.
Qed.

Lemma geocodeWithArcGIS_trace enc net address :
  let singleLine := address +:+ PORTLAND_SUFFIX in
  trace (geocodeWithArcGIS enc net address)
  = requested enc singleLine (GET_arcgisGeocoder singleLine) ++
    logged enc "ArcGIS Oregon geocoder error:" singleLine
      (oregon_geocoder net singleLine) ++
    match yields enc singleLine (oregon_geocoder net singleLine) with
    | Some _ => []
    | None => trace (geocodeWithWorldGeocoder enc net address)
    end.
Proof.
  pose proof (geocodeWithWorldGeocoder_completion enc net address) as Hw.
  unfold geocodeWithArcGIS, uriComponent, requested, logged, caught, yields in *.
  destruct (geocodeWithWorldGeocoder enc net address) as [w tw];
    simpl in Hw; subst w.
  destruct (enc _); [|reflexivity].
  destruct (oregon_geocoder net _) as [|[[] st [|data]]]; run_async;
    try destruct (first_candidate data); reflexivity.
Qed.

(** ** The join *)

Lemma until_first_request_app t :
  fst (until_first_request t) ++ snd (until_first_request t) = t.
Proof.
  induction t as [|ev t IH]; [reflexivity|]. simpl.
  destruct (is_request ev); [reflexivity|].
  destruct (until_first_request t) as [now later]. simpl in *. by rewrite IH.
Qed.

Lemma interleave_Permutation turns (branches : list (list Event)) :
  interleave turns branches ≡ₚ concat branches.
Proof.
  revert branches. induction turns as [|i turns IH]; intros branches; [done|].
  simpl. destruct (branches !! i) as [[|ev evs]|] eqn:Hi; try apply IH.
  rewrite IH.
  rewrite <- (take_drop_middle branches i (ev :: evs)) at 2 by exact Hi.
  rewrite insert_take_drop by (eapply lookup_lt_Some; exact Hi).
  rewrite !concat_app, !concat_cons.
  by rewrite Permutation_middle.
Qed.

Lemma join_traces_Permutation turns (traces : list (list Event)) :
  join_traces turns traces ≡ₚ concat traces.
Proof.
  unfold join_traces. rewrite interleave_Permutation.
  induction traces as [|t traces IH]; [reflexivity|].
  rewrite !fmap_cons, !concat_cons.
  rewrite <- (until_first_request_app t) at 3.
  rewrite <- IH, <- !app_assoc. apply Permutation_app_head.
  by rewrite !app_assoc, (Permutation_app_comm (concat _)).
Qed.

Lemma all_returned_imap {A B} (f : nat -> A -> Async B) (g : nat -> A -> B) l :
  (forall i a, completion (f i a) = Returned (g i a)) ->
  all_returned (imap f l) = Returned (imap g l).
Proof.
  revert f g. induction l as [|a l IH]; intros f g Hfg; [reflexivity|].
  rewrite !imap_cons. simpl.
  rewrite (IH (f ∘ S) (g ∘ S) (fun i a => Hfg (S i) a)).
  by rewrite (Hfg 0%nat a).
Qed.

Lemma toCandidate_completion enc net includeRaw index suggestion :
  completion (toCandidate enc net includeRaw index suggestion)
  = Returned (buildCandidate includeRaw index suggestion
                (geocoded enc net (label suggestion))).
Proof.
  pose proof (geocodeWithArcGIS_completion enc net (label suggestion)) as Hg.
  unfold toCandidate.
  destruct (geocodeWithArcGIS enc net (label suggestion)) as [r t];
    simpl in Hg; subst r.
  reflexivity.
Qed.

Lemma toCandidate_trace enc net includeRaw index suggestion :
  trace (toCandidate enc net includeRaw index suggestion)
  = trace (geocodeWithArcGIS enc net (label suggestion)).
Proof.
  pose proof (geocodeWithArcGIS_completion enc net (label suggestion)) as Hg.
  unfold toCandidate.
  destruct (geocodeWithArcGIS enc net (label suggestion)) as [r t];
    simpl in Hg; subst r.
  run_async. apply app_nil_r.
Qed.

(** ** The pipeline as a whole *)

Lemma resolveAddress_returned enc net q m bb includeRaw st data :
  is_Some (enc q) ->
  suggest_service net q m
  = Resolved {| ok := true; status := st; body := Json data |} ->
  completion (resolveAddress enc net q m bb includeRaw)
  = Returned {| candidates :=
                  slice0 m (bbox_filter bb
                    (enrich_all enc net includeRaw (suggestions_of data)));
                query := q; max_results := m; bbox := bb |}.
Proof.
  intros [encoded Henc] Hs. unfold resolveAddress, uriComponent, Promise_all.
  rewrite Henc, Hs. run_async.
  rewrite (all_returned_imap (toCandidate enc net includeRaw) _
             (suggestions_of data) (toCandidate_completion enc net includeRaw)).
  reflexivity.
Qed.

Lemma toCandidate_traces enc net includeRaw (l : list PropertySuggestion) :
  trace <$> imap (toCandidate enc net includeRaw) l
  = (fun s => trace (geocodeWithArcGIS enc net (label s))) <$> l.
Proof.
  generalize (toCandidate enc net includeRaw)
             (toCandidate_trace enc net includeRaw).
  induction l as [|s l IH]; intros f Hf; [reflexivity|].
  rewrite imap_cons, !fmap_cons. rewrite Hf. f_equal.
  apply IH. intros i s'. apply Hf.
Qed.

(** The geocoding resolutions of one call run side by side, after the
    suggestion lookup: first the part of each up to its first request, then
    the rest of them in the order the answers arrive. *)
Lemma resolveAddress_trace enc net q m bb includeRaw st data :
  is_Some (enc q) ->
  suggest_service net q m
  = Resolved {| ok := true; status := st; body := Json data |} ->
  trace (resolveAddress enc net q m bb includeRaw)
  = GET_suggest q m ::
    join_traces (arrival net)
      ((fun s => trace (geocodeWithArcGIS enc net (label s)))
         <$> suggestions_of data).
Proof.
  intros [encoded Henc] Hs. unfold resolveAddress, uriComponent, Promise_all.
  rewrite Henc, Hs.
  cbv [mbind mret Async_bind Async_ret bind ret throw emit try_catch fetch json].
  simpl.
  rewrite (all_returned_imap (toCandidate enc net includeRaw) _
             (suggestions_of data) (toCandidate_completion enc net includeRaw)).
  rewrite toCandidate_traces. simpl. by rewrite app_nil_r.
Qed.

Lemma resolveAddress_trace_Permutation enc net q m bb includeRaw st data :
  is_Some (enc q) ->
  suggest_service net q m
  = Resolved {| ok := true; status := st; body := Json data |} ->
  trace (resolveAddress enc net q m bb includeRaw)
  ≡ₚ GET_suggest q m ::
     concat ((fun s => trace (geocodeWithArcGIS enc net (label s)))
               <$> suggestions_of data).
Proof.
  intros Henc Hs. rewrite (resolveAddress_trace _ _ _ _ _ _ _ _ Henc Hs).
  by rewrite join_traces_Permutation.
Qed.

Lemma resolveAddress_thrown enc net q m bb includeRaw :
  is_Some (enc q) ->
  call_failed (suggest_service net q m) ->
  exists cause,
    resolveAddress enc net q m bb includeRaw
    = (Thrown (FailedToResolveAddress cause), [GET_suggest q m]).
Proof.
  intros [encoded Henc]. unfold resolveAddress, uriComponent. rewrite Henc.
  destruct (suggest_service net q m) as [|[[] st [|data]]]; simpl; intros H;
    try contradiction; eexists; run_async; reflexivity.
Qed.

Lemma resolveAddress_unencodable enc net q m bb includeRaw :
  enc q = None ->
  resolveAddress enc net q m bb includeRaw
  = (Thrown (FailedToResolveAddress URIError), []).
Proof.
  intros Henc. unfold resolveAddress, uriComponent. rewrite Henc. reflexivity.
Qed.

(** ** Lists *)

Lemma slice0_take {A} (m : Z) (l : list A) :
  0 <= m -> slice0 m l = take (Z.to_nat m) l.
Proof.
  intros Hm. unfold slice0.
  destruct (Z.ltb_spec m 0) as [?|_]; [lia|].
  destruct (Z.le_ge_cases m (Z.of_nat (length l))) as [Hle|Hge].
  - by rewrite Z.min_l.
  - rewrite Z.min_r, Nat2Z.id by done.
    rewrite !take_ge; [done | lia | lia].
Qed.

Lemma slice0_sublist {A} (m : Z) (l : list A) : slice0 m l `sublist_of` l.
Proof. apply sublist_take. Qed.

Lemma bbox_filter_sublist bb cs : bbox_filter bb cs `sublist_of` cs.
Proof.
  unfold bbox_filter.
  destruct bb as [[|a [|b [|c [|d [|e l]]]]]|]; try reflexivity.
  apply sublist_filter.
Qed.

Lemma between_spec lo hi v : between lo hi v = true <-> (lo <= v)%Q /\ (v <= hi)%Q.
Proof. unfold between. rewrite andb_true_iff, !Qle_bool_iff. tauto. Qed.

Lemma in_bbox_spec minLon minLat maxLon maxLat c :
  in_bbox minLon minLat maxLon maxLat c = true <->
  ((minLon <= x_lon c)%Q /\ (x_lon c <= maxLon)%Q) /\
  ((minLat <= y_lat c)%Q /\ (y_lat c <= maxLat)%Q).
Proof. unfold in_bbox. rewrite andb_true_iff, !between_spec. tauto. Qed.

Lemma elem_of_enrich_all enc net includeRaw ss c :
  c ∈ enrich_all enc net includeRaw ss ->
  exists i s, ss !! i = Some s /\
    c = buildCandidate includeRaw i s (geocoded enc net (label s)).
Proof.
  unfold enrich_all. intros (i & s & -> & Hs)%elem_of_lookup_imap. eauto.
Qed.

(** ** Properties of the geocoding resolver *)

(** C5. Tier-1 short-circuit: when the Oregon geocoder answers the request for
    an address (a text the client can put into a URL) with a 2xx response that
    lists at least one candidate, [geocodeWithArcGIS] resolves to the location
    and score of the first of them, and the Oregon request is the only event
    of the call: the World geocoder is not requested. *)
Theorem tier1_short_circuit encodeURIComponent net address c :
  is_Some (encodeURIComponent (address +:+ ", Portland, OR")) ->
  answers_with (oregon_geocoder net (address +:+ ", Portland, OR")) c ->
  completion (geocodeWithArcGIS encodeURIComponent net address)
  = Returned (Some {| Geocode.x := ArcGIS.x (ArcGIS.location c);
                      Geocode.y := ArcGIS.y (ArcGIS.location c);
                      Geocode.score := ArcGIS.score c |}) /\
  trace (geocodeWithArcGIS encodeURIComponent net address)
  = [GET_arcgisGeocoder (address +:+ ", Portland, OR")] /\
  forall ev, ev ∈ trace (geocodeWithArcGIS encodeURIComponent net address) ->
             is_world_call ev = false.
Proof.
  intros [encoded Henc] (st & others & Ho).
  assert (geocodeWithArcGIS encodeURIComponent net address
          = (Returned (Some (as_result c)),
             [GET_arcgisGeocoder (address +:+ ", Portland, OR")])) as ->.
  { unfold geocodeWithArcGIS, uriComponent.
    change PORTLAND_SUFFIX with ", Portland, OR".
    rewrite Henc, Ho. reflexivity. }
  repeat split. intros ev ->%list_elem_of_singleton. reflexivity.
Qed.

Lemma tier1_short_circuit_witness :
  completion (geocodeWithArcGIS identity_encoding sample_net "1234 SW MAIN ST")
  = Returned (Some {| Geocode.x := - (122689 # 1000);
                      Geocode.y := 45516 # 1000;
                      Geocode.score := 97 |}) /\
  trace (geocodeWithArcGIS identity_encoding sample_net "1234 SW MAIN ST")
  = [GET_arcgisGeocoder "1234 SW MAIN ST, Portland, OR"].
Proof.
  destruct (tier1_short_circuit identity_encoding sample_net "1234 SW MAIN ST"
              sw_main_match) as (Hc & Ht & _).
  - eexists. reflexivity.
  - exists 200, []. reflexivity.
  - split; [exact Hc | exact Ht].
Defined.

Lemma geocodeWithArcGIS_falls_through enc net address :
  is_Some (enc (address +:+ PORTLAND_SUFFIX)) ->
  tier (oregon_geocoder net (address +:+ PORTLAND_SUFFIX)) = None ->
  GET_arcgisWorldGeocoder (address +:+ PORTLAND_SUFFIX)
    ∈ trace (geocodeWithArcGIS enc net address) /\
  completion (geocodeWithArcGIS enc net address)
  = Returned (tier (world_geocoder net (address +:+ PORTLAND_SUFFIX))).
Proof.
  intros [encoded Henc] Ho. split.
  - rewrite geocodeWithArcGIS_trace, geocodeWithWorldGeocoder_trace.
    unfold yields, requested. rewrite Henc, Ho.
    rewrite !elem_of_app. right. right. left. apply list_elem_of_here.
  - rewrite geocodeWithArcGIS_completion. unfold geocoded, yields.
    by rewrite Henc, Ho.
Qed.

(** C6. Tier-2 fallback: when the Oregon geocoder call for a suggestion's
    label (a text the client can put into a URL) fails (rejected request,
    non-2xx status, undecodable body) or lists no candidate, the World
    geocoder is requested with the same text.  If it answers with at least one
    candidate, the resolver returns the first one and the candidate built for
    the suggestion carries the [arcgis_geocoder] tag and the World geocoder's
    coordinates.  If it fails or lists nothing as well, the resolver returns
    no match, and does not throw. *)
Theorem tier2_fallback encodeURIComponent net includeRaw index suggestion :
  let singleLine := label suggestion +:+ ", Portland, OR" in
  is_Some (encodeURIComponent singleLine) ->
  call_failed (oregon_geocoder net singleLine) \/
  answers_empty (oregon_geocoder net singleLine) ->
  GET_arcgisWorldGeocoder singleLine
    ∈ trace (geocodeWithArcGIS encodeURIComponent net (label suggestion)) /\
  (forall c, answers_with (world_geocoder net singleLine) c ->
     completion (geocodeWithArcGIS encodeURIComponent net (label suggestion))
     = Returned (Some {| Geocode.x := ArcGIS.x (ArcGIS.location c);
                         Geocode.y := ArcGIS.y (ArcGIS.location c);
                         Geocode.score := ArcGIS.score c |}) /\
     exists candidate,
       completion (toCandidate encodeURIComponent net includeRaw index suggestion)
       = Returned candidate /\
       source candidate = arcgis_geocoder /\
       x_lon candidate = ArcGIS.x (ArcGIS.location c) /\
       y_lat candidate = ArcGIS.y (ArcGIS.location c)) /\
  (call_failed (world_geocoder net singleLine) \/
   answers_empty (world_geocoder net singleLine) ->
   completion (geocodeWithArcGIS encodeURIComponent net (label suggestion))
   = Returned None).
Proof.
  intros singleLine. subst singleLine.
  change ", Portland, OR" with PORTLAND_SUFFIX. intros Henc Ho%tier_None.
  destruct (geocodeWithArcGIS_falls_through encodeURIComponent net
              (label suggestion) Henc Ho) as [Hin Hc].
  destruct Henc as [encoded Henc].
  split; [exact Hin|]. split.
  - intros c Hw%tier_answers_with. rewrite Hw in Hc.
    split; [exact Hc|].
    eexists. split; [apply toCandidate_completion|].
    unfold geocoded, yields. rewrite Henc, Ho, Hw. repeat split.
  - intros Hw%tier_None. by rewrite Hw in Hc.
Qed.

Lemma tier2_fallback_witness :
  GET_arcgisWorldGeocoder "1234 SE MAIN ST, Portland, OR"
    ∈ trace (geocodeWithArcGIS identity_encoding sample_net "1234 SE MAIN ST") /\
  completion (geocodeWithArcGIS identity_encoding sample_net "1234 SE MAIN ST")
  = Returned (Some {| Geocode.x := - (122653 # 1000);
                      Geocode.y := 45513 # 1000;
                      Geocode.score := 80 |}).
Proof.
  destruct (tier2_fallback identity_encoding sample_net false 1 se_main)
    as (Hin & Hhit & _).
  - eexists. reflexivity.
  - left. exact I.
  - split; [exact Hin|].
    apply (Hhit se_main_match). exists 200, []. reflexivity.
Defined.

(** ** Error propagation *)

(** C3, as the code has it.  [resolveAddress] throws exactly when the query
    cannot be put into the URL of the lookup ([encodeURIComponent] throws) or
    the suggestion lookup fails (rejected request, non-2xx status or
    undecodable body); whenever the query can be encoded and the suggestion
    service answers, it returns a result.  Neither geocoding helper ever
    throws: each resolves to a match or to no match, whatever the geocoders
    answer and whatever the address. *)
Theorem resolveAddress_failure_policy encodeURIComponent net q m bb includeRaw :
  ((exists e, completion (resolveAddress encodeURIComponent net q m bb includeRaw)
              = Thrown e) <->
   encodeURIComponent q = None \/ call_failed (suggest_service net q m)) /\
  ((exists r, completion (resolveAddress encodeURIComponent net q m bb includeRaw)
              = Returned r) <->
   is_Some (encodeURIComponent q) /\ ~ call_failed (suggest_service net q m)) /\
  (forall address,
     (exists g, completion (geocodeWithWorldGeocoder encodeURIComponent net address)
                = Returned g) /\
     (exists g, completion (geocodeWithArcGIS encodeURIComponent net address)
                = Returned g)) /\
  (forall index suggestion,
     exists c, completion (toCandidate encodeURIComponent net includeRaw
                             index suggestion) = Returned c).
Proof.
  set (run := resolveAddress encodeURIComponent net q m bb includeRaw).
  assert (encodeURIComponent q = None \/ call_failed (suggest_service net q m) ->
          exists e, completion run = Thrown e) as Hfail.
  { destruct (encodeURIComponent q) as [encoded|] eqn:Henc.
    - intros [?|Hf]; [discriminate|].
      destruct (resolveAddress_thrown encodeURIComponent net q m bb includeRaw)
        as (cause & Hc); [by eexists | exact Hf |].
      subst run. rewrite Hc. eauto.
    - intros _. subst run. rewrite resolveAddress_unencodable by exact Henc. eauto. }
  assert (is_Some (encodeURIComponent q) /\ ~ call_failed (suggest_service net q m) ->
          exists r, completion run = Returned r) as Hok.
  { intros [Henc Hn].
    destruct (suggest_service net q m) as [|[[] st [|data]]] eqn:Hs;
      simpl in Hn; try (exfalso; apply Hn; exact I).
    eexists. by eapply resolveAddress_returned. }
  split; [|split; [|split]].
  - split; [|exact Hfail]. intros [e He].
    destruct (encodeURIComponent q) as [encoded|] eqn:Henc; [|by left]. right.
    destruct (suggest_service net q m) as [|[[] st [|data]]] eqn:Hs; simpl; try exact I.
    destruct Hok as [r Hr]; [split; [by eexists | simpl; tauto]|]. congruence.
  - split; [|exact Hok]. intros [r Hr].
    destruct (encodeURIComponent q) as [encoded|] eqn:Henc.
    + split; [by eexists|]. intros Hf.
      destruct Hfail as [e He]; [by right|]. congruence.
    + destruct Hfail as [e He]; [by left|]. congruence.
  - intros address. split; eexists.
    + apply geocodeWithWorldGeocoder_completion.
    + apply geocodeWithArcGIS_completion.
  - intros index suggestion. eexists. apply toCandidate_completion.
Qed.

(** C3, as stated, fails: a query that starts with an unpaired surrogate
    cannot be encoded, and [resolveAddress] throws before it makes any
    request, although the suggestion service would have answered. *)
Lemma unencodable_query_counterexample :
  resolveAddress strict_encoding sample_net unpaired_surrogate 10 None false
  = (Thrown (FailedToResolveAddress URIError), []) /\
  ~ call_failed (suggest_service sample_net unpaired_surrogate 10) /\
  ~ ((exists e, completion (resolveAddress strict_encoding sample_net
                              unpaired_surrogate 10 None false) = Thrown e) <->
     call_failed (suggest_service sample_net unpaired_surrogate 10)).
Proof.
  split; [reflexivity|]. split; [intros []|].
  intros [H _]. apply H. eexists. reflexivity.
Qed.

(** ** Properties of the returned candidates *)

Lemma resolveAddress_inv enc net q m bb includeRaw r :
  completion (resolveAddress enc net q m bb includeRaw) = Returned r ->
  exists st data,
    is_Some (enc q) /\
    suggest_service net q m
    = Resolved {| ok := true; status := st; body := Json data |} /\
    r = {| candidates :=
             slice0 m (bbox_filter bb
               (enrich_all enc net includeRaw (suggestions_of data)));
           query := q; max_results := m; bbox := bb |}.
Proof.
  intros Hr.
  destruct (enc q) as [encoded|] eqn:Henc;
    [|rewrite resolveAddress_unencodable in Hr by exact Henc; discriminate].
  assert (is_Some (enc q)) as Hsome by (by eexists).
  destruct (suggest_service net q m) as [|[[] st [|data]]] eqn:Hs;
    try (destruct (resolveAddress_thrown enc net q m bb includeRaw) as (cause & Hc);
         [exact Hsome | by rewrite Hs | rewrite Hc in Hr; discriminate]).
  exists st, data. split; [by eexists|]. split; [reflexivity|].
  rewrite (resolveAddress_returned _ _ _ _ _ _ _ _ Hsome Hs) in Hr. congruence.
Qed.

Lemma returned_candidate_origin enc net q m bb includeRaw r c :
  completion (resolveAddress enc net q m bb includeRaw) = Returned r ->
  c ∈ candidates r ->
  exists i s, c = buildCandidate includeRaw i s (geocoded enc net (label s)).
Proof.
  intros (st & data & _ & _ & ->)%resolveAddress_inv Hc. simpl in Hc.
  apply (sublist_subseteq _ _ (slice0_sublist _ _)) in Hc.
  apply (sublist_subseteq _ _ (bbox_filter_sublist _ _)) in Hc.
  apply elem_of_enrich_all in Hc as (i & s & _ & ->). eauto.
Qed.

Lemma Math_round_near q :
  (inject_Z (Qfloor (q + (1 # 2))) - (1 # 2) <= q)%Q /\
  (q < inject_Z (Qfloor (q + (1 # 2))) + (1 # 2))%Q.
Proof.
  pose proof (Qfloor_le (q + (1 # 2))) as Hlo.
  pose proof (Qlt_floor (q + (1 # 2))) as Hhi.
  rewrite inject_Z_plus in Hhi. change (inject_Z 1) with 1%Q in Hhi.
  split; lra.
Qed.

(** C2. Enrichment postcondition.  The promises [resolveAddress] creates for a
    list of suggestions all resolve, whatever the order in which the answers
    arrive, to one candidate per suggestion and in the order of the
    suggestions.  The candidate at position [i] carries the suggestion's
    label; with [baseScore = max(100 - i*5, 50)], if geocoding the label finds
    a match, its score is the integer nearest (halves up) to the double
    nearest to half of the double nearest to [baseScore + match score], and
    its coordinates are the match's; if geocoding finds nothing, its score is
    [baseScore] and its coordinates are exactly (-122.6765, 45.5155).
    Whenever the suggestion service answers the lookup with these
    suggestions, the result of [resolveAddress] is cut out of that list of
    candidates. *)
Theorem enrichment_postcondition encodeURIComponent net includeRaw suggestions :
  exists enriched,
    (forall turns,
       completion (Promise_all turns
                     (imap (toCandidate encodeURIComponent net includeRaw)
                           suggestions))
       = Returned enriched) /\
    length enriched = length suggestions /\
    (forall i s, suggestions !! i = Some s ->
       exists c, enriched !! i = Some c /\
         normalized_address c = label s /\
         match completion (geocodeWithArcGIS encodeURIComponent net (label s)) with
         | Returned (Some g) =>
             (exists (sum mean : Q) (n : Z),
                rounds_to_double
                  (inject_Z (Z.max (100 - Z.of_nat i * 5) 50) + Geocode.score g)
                  sum /\
                rounds_to_double (sum / 2) mean /\
                (inject_Z n - (1 # 2) <= mean)%Q /\
                (mean < inject_Z n + (1 # 2))%Q /\
                score c = inject_Z n) /\
             x_lon c = Geocode.x g /\ y_lat c = Geocode.y g
         | Returned None =>
             score c = inject_Z (Z.max (100 - Z.of_nat i * 5) 50) /\
             x_lon c = (- (1226765 # 10000))%Q /\
             y_lat c = (455155 # 10000)%Q
         | Thrown _ => False
         end) /\
    (forall q m bb st data,
       is_Some (encodeURIComponent q) ->
       suggest_service net q m
       = Resolved {| ok := true; status := st; body := Json data |} ->
       suggestions = default [] (Suggest.candidates data) ->
       exists r,
         completion (resolveAddress encodeURIComponent net q m bb includeRaw)
         = Returned r /\
         candidates r = slice0 m (bbox_filter bb enriched)).
Proof.
  exists (enrich_all encodeURIComponent net includeRaw suggestions).
  split; [|split; [|split]].
  - intros turns. apply all_returned_imap, toCandidate_completion.
  - apply length_imap.
  - intros i s Hs. unfold enrich_all. rewrite list_lookup_imap, Hs. simpl.
    rewrite geocodeWithArcGIS_completion.
    destruct (geocoded encodeURIComponent net (label s)) as [g|];
      eexists; repeat split.
    simpl. unfold Math_round, double_div, double_add, baseScore.
    set (sum := to_double (inject_Z (Z.max (100 - Z.of_nat i * 5) 50)
                           + Geocode.score g)).
    set (mean := to_double (sum / 2)).
    exists sum, mean, (Qfloor (mean + (1 # 2))).
    split; [apply to_double_rounds|]. split; [apply to_double_rounds|].
    destruct (Math_round_near mean). repeat split; assumption.
  - intros q m bb st data Henc Hs ->. eexists. split.
    + by eapply resolveAddress_returned.
    + reflexivity.
Qed.

Lemma Math_round_bounds (b : Z) (s : Q) :
  50 <= b <= 100 -> (0 <= s)%Q -> (s <= 100)%Q ->
  exists n : Z,
    Math_round (double_div (double_add (inject_Z b) s) 2) = inject_Z n /\
    0 <= n <= 100.
Proof.
  intros Hb Hs0 Hs1. unfold Math_round, double_div, double_add.
  eexists. split; [reflexivity|].
  assert (50 # 1 <= inject_Z b)%Q as Hb0 by (unfold Qle; simpl; lia).
  assert (inject_Z b <= 100 # 1)%Q as Hb1 by (unfold Qle; simpl; lia).
  assert (2 ^ (-46) == 1 # 70368744177664)%Q as Hd by reflexivity.
  set (x := (inject_Z b + s)%Q).
  assert (50 <= x)%Q as Hx0 by (subst x; lra).
  assert (x <= 200)%Q as Hx1 by (subst x; lra).
  clearbody x.
  pose proof (to_double_small x ltac:(lra) ltac:(lra)) as Hsum.
  set (sum := to_double x) in *. clearbody sum.
  apply Qabs_Qle_condition in Hsum as [Hsum0 Hsum1].
  rewrite Hd in Hsum0, Hsum1.
  assert (forall a, a / 2 == a * (1 # 2))%Q as Hhalf by (intros; field).
  assert (0 < sum / 2)%Q as Hpos
    by (rewrite Hhalf; clear - Hx0 Hsum0; lra).
  assert (sum / 2 < 256)%Q as Hlt
    by (rewrite Hhalf; clear - Hx1 Hsum1; lra).
  pose proof (to_double_small (sum / 2) Hpos Hlt) as Hmean.
  set (mean := to_double (sum / 2)) in *. clearbody mean.
  apply Qabs_Qle_condition in Hmean as [Hmean0 Hmean1].
  rewrite Hd, Hhalf in Hmean0, Hmean1.
  assert (25 # 1 <= mean + (1 # 2))%Q as Hlo
    by (clear - Hx0 Hsum0 Hmean0; lra).
  assert (mean + (1 # 2) <= 403 # 4)%Q as Hhi
    by (clear - Hx1 Hsum1 Hmean1; lra).
  change (25 # 1)%Q with (inject_Z 25) in Hlo.
  split.
  - apply Qfloor_resp_le in Hlo. rewrite Qfloor_Z in Hlo. lia.
  - pose proof (Qle_trans _ _ _ (Qfloor_le (mean + (1 # 2))) Hhi) as H.
    revert H. generalize (Qfloor (mean + (1 # 2))). intros n H.
    unfold Qle in H. simpl in H. lia.
Qed.

(** C4. Score range: if every match score the two geocoders supply lies in
    [0,100], every candidate [resolveAddress] returns has an integer score, and
    that integer lies in [0,100]. *)
Theorem score_in_range encodeURIComponent net q m bb includeRaw r c :
  (forall singleLine match_,
     answers_with (oregon_geocoder net singleLine) match_ \/
     answers_with (world_geocoder net singleLine) match_ ->
     (0 <= ArcGIS.score match_)%Q /\ (ArcGIS.score match_ <= 100)%Q) ->
  completion (resolveAddress encodeURIComponent net q m bb includeRaw)
  = Returned r ->
  c ∈ candidates r ->
  exists n : Z, score c = inject_Z n /\ 0 <= n <= 100.
Proof.
  intros Hscores Hr Hc.
  destruct (returned_candidate_origin _ _ _ _ _ _ _ _ Hr Hc) as (i & s & ->).
  assert (50 <= baseScore i <= 100) as Hb by (unfold baseScore; lia).
  unfold geocoded, yields.
  destruct (encodeURIComponent _);
    [|exists (baseScore i); split; [reflexivity | lia]].
  destruct (tier (oregon_geocoder net _)) as [g|] eqn:Ho.
  - apply tier_Some_answers_with in Ho as (mt & Hmt & ->).
    destruct (Hscores _ mt (or_introl Hmt)) as [H0 H1].
    by apply Math_round_bounds.
  - destruct (tier (world_geocoder net _)) as [g|] eqn:Hw.
    + apply tier_Some_answers_with in Hw as (mt & Hmt & ->).
      destruct (Hscores _ mt (or_intror Hmt)) as [H0 H1].
      by apply Math_round_bounds.
    + exists (baseScore i). split; [reflexivity | lia].
Qed.

(** The sample call in full: what it returns and the requests it makes. *)
Lemma sample_run :
  resolveAddress identity_encoding sample_net "1234 MAIN ST" 10 None false
  = (Returned {| candidates := [sw_main_candidate; se_main_candidate; n_main_candidate];
                 query := "1234 MAIN ST"; max_results := 10; bbox := None |},
     [GET_suggest "1234 MAIN ST" 10;
      GET_arcgisGeocoder "1234 SW MAIN ST, Portland, OR";
      GET_arcgisGeocoder "1234 SE MAIN ST, Portland, OR";
      GET_arcgisGeocoder "1234 N MAIN ST, Portland, OR";
      GET_arcgisWorldGeocoder "1234 N MAIN ST, Portland, OR";
      GET_arcgisWorldGeocoder "1234 SE MAIN ST, Portland, OR";
      console_error "ArcGIS World geocoder error:" NetworkError]).
Proof. vm_compute. reflexivity. Qed.

Lemma sample_scores singleLine match_ :
  answers_with (oregon_geocoder sample_net singleLine) match_ \/
  answers_with (world_geocoder sample_net singleLine) match_ ->
  (0 <= ArcGIS.score match_)%Q /\ (ArcGIS.score match_ <= 100)%Q.
Proof.
  unfold answers_with. simpl.
  intros [(st & others & H) | (st & others & H)];
    destruct (String.eqb singleLine _); try discriminate;
    injection H as _ <- _; split; discriminate.
Qed.

Lemma score_in_range_witness :
  exists n : Z, score se_main_candidate = inject_Z n /\ 0 <= n <= 100.
Proof.
  apply (score_in_range identity_encoding sample_net "1234 MAIN ST" 10 None false
           {| candidates := [sw_main_candidate; se_main_candidate; n_main_candidate];
              query := "1234 MAIN ST"; max_results := 10; bbox := None |}).
  - exact sample_scores.
  - vm_compute. reflexivity.
  - simpl. apply list_elem_of_further, list_elem_of_here.
Defined.

Lemma source_of_returned_candidate enc net q m bb includeRaw r c :
  completion (resolveAddress enc net q m bb includeRaw) = Returned r ->
  c ∈ candidates r ->
  match geocoded enc net (normalized_address c) with
  | Some _ => source c = arcgis_geocoder
  | None => source c = portlandmaps_api
  end.
Proof.
  intros Hr Hc.
  destruct (returned_candidate_origin _ _ _ _ _ _ _ _ Hr Hc) as (i & s & ->).
  destruct (geocoded enc net (label s)) as [g|] eqn:Hg; simpl; by rewrite Hg.
Qed.

(** C9. The value [internal_fallback] never reaches the caller: every
    candidate [resolveAddress] returns is tagged [arcgis_geocoder], and then
    geocoding its address found a match, or [portlandmaps_api], and then
    geocoding its address found nothing. *)
Theorem internal_fallback_unreachable encodeURIComponent net q m bb includeRaw r c :
  completion (resolveAddress encodeURIComponent net q m bb includeRaw)
  = Returned r ->
  c ∈ candidates r ->
  source c <> internal_fallback /\
  ((source c = arcgis_geocoder /\
    exists g, completion (geocodeWithArcGIS encodeURIComponent net
                            (normalized_address c))
              = Returned (Some g)) \/
   (source c = portlandmaps_api /\
    completion (geocodeWithArcGIS encodeURIComponent net (normalized_address c))
    = Returned None)).
Proof.
  intros Hr Hc.
  pose proof (source_of_returned_candidate _ _ _ _ _ _ _ _ Hr Hc) as Hs.
  rewrite geocodeWithArcGIS_completion.
  destruct (geocoded encodeURIComponent net (normalized_address c)) as [g|];
    rewrite Hs.
  - split; [discriminate|]. left. eauto.
  - split; [discriminate|]. right. eauto.
Qed.

Lemma internal_fallback_unreachable_witness :
  source n_main_candidate <> internal_fallback /\
  completion (geocodeWithArcGIS identity_encoding sample_net "1234 N MAIN ST")
  = Returned None.
Proof.
  destruct (internal_fallback_unreachable identity_encoding sample_net
              "1234 MAIN ST" 10 None false
              {| candidates := [sw_main_candidate; se_main_candidate; n_main_candidate];
                 query := "1234 MAIN ST"; max_results := 10; bbox := None |}
              n_main_candidate) as [Hne _].
  - vm_compute. reflexivity.
  - simpl. apply list_elem_of_further, list_elem_of_further, list_elem_of_here.
  - split; [exact Hne | reflexivity].
Defined.

(** C1.  The tag [internal_fallback] stands for default coordinates used when
    geocoding is unavailable.  With the sample services both geocoder tiers
    fail for the third address (503 from the Oregon geocoder, no connection to
    the World geocoder); the candidate returned for it sits at the default
    coordinates and is tagged [portlandmaps_api], not [internal_fallback]. *)
Theorem fallback_tag_divergence :
  call_failed (oregon_geocoder sample_net "1234 N MAIN ST, Portland, OR") /\
  call_failed (world_geocoder sample_net "1234 N MAIN ST, Portland, OR") /\
  exists c,
    returned_candidates
      (resolveAddress identity_encoding sample_net "1234 MAIN ST" 10 None false)
      !! 2%nat = Some c /\
    normalized_address c = "1234 N MAIN ST" /\
    x_lon c = FALLBACK_X_LON /\ y_lat c = FALLBACK_Y_LAT /\
    source c = portlandmaps_api /\
    source c <> internal_fallback.
Proof.
  split; [exact I|]. split; [exact I|].
  exists n_main_candidate. split; [vm_compute; reflexivity|].
  repeat split. discriminate.
Qed.

(** ** Filtering and truncation *)

Lemma identity_encodes text : is_Some (identity_encoding text).
Proof. by eexists. Qed.

Lemma sample_run_east_side (m : Z) :
  0 < m ->
  completion (resolveAddress identity_encoding sample_net "1234 MAIN ST" m
                (Some east_side) false)
  = Returned {| candidates := [se_main_candidate];
                query := "1234 MAIN ST"; max_results := m; bbox := Some east_side |}.
Proof.
  intros Hm.
  rewrite (resolveAddress_returned identity_encoding sample_net _ _ _ _ 200
             {| Suggest.candidates := Some [sw_main; se_main; n_main] |}
             (identity_encodes _) eq_refl).
  rewrite slice0_take by lia. f_equal. f_equal.
  assert (bbox_filter (Some east_side)
            (enrich_all identity_encoding sample_net false
               (suggestions_of {| Suggest.candidates := Some [sw_main; se_main; n_main] |}))
          = [se_main_candidate]) as -> by (vm_compute; reflexivity).
  destruct (Z.to_nat m) as [|[|n]] eqn:Hn; [lia | reflexivity | reflexivity].
Qed.

(** C7. Bounding-box contract, for a non-negative [maxResults] and a call whose
    suggestion lookup succeeds; [enriched] is what the candidate promises
    resolve to.  With a four-component [bbox], the result is the first
    [maxResults] of the candidates of [enriched] that lie inside the box, in
    their order: truncation comes after filtering, every returned candidate
    lies inside the box, and the number returned is the minimum of [maxResults]
    and the number of candidates inside the box.  With any other [bbox], or
    none, nothing is filtered: the result is the first [maxResults] candidates
    of [enriched]. *)
Theorem bbox_filter_contract encodeURIComponent net q m bb includeRaw st data enriched :
  0 <= m ->
  is_Some (encodeURIComponent q) ->
  suggest_service net q m
  = Resolved {| ok := true; status := st; body := Json data |} ->
  completion (Promise_all (arrival net)
                (imap (toCandidate encodeURIComponent net includeRaw)
                      (default [] (Suggest.candidates data))))
  = Returned enriched ->
  exists r,
    completion (resolveAddress encodeURIComponent net q m bb includeRaw)
    = Returned r /\
    (forall minLon minLat maxLon maxLat,
       bb = Some [minLon; minLat; maxLon; maxLat] ->
       let kept := filter (fun c => in_bbox minLon minLat maxLon maxLat c) enriched in
       (forall c, c ∈ kept <->
          c ∈ enriched /\
          ((minLon <= x_lon c)%Q /\ (x_lon c <= maxLon)%Q) /\
          ((minLat <= y_lat c)%Q /\ (y_lat c <= maxLat)%Q)) /\
       candidates r = take (Z.to_nat m) kept /\
       Z.of_nat (length (candidates r)) = Z.min m (Z.of_nat (length kept)) /\
       (forall c, c ∈ candidates r ->
          ((minLon <= x_lon c)%Q /\ (x_lon c <= maxLon)%Q) /\
          ((minLat <= y_lat c)%Q /\ (y_lat c <= maxLat)%Q))) /\
    ((forall minLon minLat maxLon maxLat,
        bb <> Some [minLon; minLat; maxLon; maxLat]) ->
     candidates r = take (Z.to_nat m) enriched /\
     Z.of_nat (length (candidates r)) = Z.min m (Z.of_nat (length enriched))).
Proof.
  intros Hm Henc Hs Hall. fold (suggestions_of data) in Hall.
  unfold Promise_all in Hall. simpl in Hall.
  rewrite (all_returned_imap _ _ _
             (toCandidate_completion encodeURIComponent net includeRaw)) in Hall.
  injection Hall as <-.
  eexists. split; [by eapply resolveAddress_returned|]. simpl.
  rewrite slice0_take by done. split.
  - intros minLon minLat maxLon maxLat ->. simpl.
    set (kept := filter _ _).
    assert (forall c, c ∈ kept <->
              c ∈ enrich_all encodeURIComponent net includeRaw (suggestions_of data) /\
              ((minLon <= x_lon c)%Q /\ (x_lon c <= maxLon)%Q) /\
              ((minLat <= y_lat c)%Q /\ (y_lat c <= maxLat)%Q)) as Hkept.
    { intros c. subst kept. rewrite list_elem_of_filter, Is_true_true, in_bbox_spec. tauto. }
    split; [exact Hkept|]. split; [reflexivity|]. split.
    + rewrite length_take. lia.
    + intros c Hc. apply (sublist_subseteq _ _ (sublist_take _ _)) in Hc.
      by apply Hkept in Hc as [_ ?].
  - intros Hnot.
    assert (bbox_filter bb (enrich_all encodeURIComponent net includeRaw (suggestions_of data))
            = enrich_all encodeURIComponent net includeRaw (suggestions_of data)) as ->.
    { unfold bbox_filter.
      destruct bb as [[|a [|b [|c [|d [|e l]]]]]|]; try reflexivity.
      by destruct (Hnot a b c d). }
    split; [reflexivity|]. rewrite length_take. unfold enrich_all. lia.
Qed.

Lemma bbox_filter_contract_witness :
  returned_candidates
    (resolveAddress identity_encoding sample_net "1234 MAIN ST" 10
       (Some east_side) false)
  = [se_main_candidate].
Proof.
  destruct (bbox_filter_contract identity_encoding sample_net "1234 MAIN ST" 10
              (Some east_side) false
              200 {| Suggest.candidates := Some [sw_main; se_main; n_main] |}
              [sw_main_candidate; se_main_candidate; n_main_candidate])
    as (r & Hr & Hbox & _).
  - lia.
  - eexists. reflexivity.
  - reflexivity.
  - vm_compute. reflexivity.
  - unfold returned_candidates. rewrite Hr.
    destruct (Hbox _ _ _ _ eq_refl) as (_ & -> & _). reflexivity.
Defined.

Lemma normalized_address_buildCandidate includeRaw i s g :
  normalized_address (buildCandidate includeRaw i s g) = label s.
Proof. by destruct g. Qed.

Lemma enrich_all_labels enc net includeRaw ss :
  normalized_address <$> enrich_all enc net includeRaw ss = label <$> ss.
Proof.
  apply list_eq. intros i. unfold enrich_all.
  rewrite !list_lookup_fmap, list_lookup_imap.
  destruct (ss !! i) as [s|]; simpl; [|reflexivity].
  by rewrite normalized_address_buildCandidate.
Qed.

Lemma bbox_filter_head bb c cs :
  c ∈ bbox_filter bb (c :: cs) -> exists kept, bbox_filter bb (c :: cs) = c :: kept.
Proof.
  unfold bbox_filter.
  destruct bb as [[|x0 [|y0 [|x1 [|y1 [|e l]]]]]|]; try by eexists.
  intros [Hin _]%list_elem_of_filter. rewrite filter_cons_True by done. by eexists.
Qed.

(** C8, as the code has it.  For a call whose suggestion lookup succeeds, with
    [enriched] what the candidate promises resolve to: [enriched] follows the
    suggestions position by position, and the returned candidates are a
    subsequence of it, so their addresses are a subsequence of the suggested
    labels.  With [maxResults = 1], the single returned candidate is the first
    candidate that survives the bounding-box filter; it is the candidate of the
    first raw suggestion whenever that candidate survives the filter, which it
    always does when no four-component box is supplied. *)
Theorem order_preserved encodeURIComponent net q m bb includeRaw st data enriched :
  let suggestions := default [] (Suggest.candidates data) in
  is_Some (encodeURIComponent q) ->
  suggest_service net q m
  = Resolved {| ok := true; status := st; body := Json data |} ->
  completion (Promise_all (arrival net)
                (imap (toCandidate encodeURIComponent net includeRaw) suggestions))
  = Returned enriched ->
  exists r,
    completion (resolveAddress encodeURIComponent net q m bb includeRaw)
    = Returned r /\
    normalized_address <$> enriched = label <$> suggestions /\
    candidates r `sublist_of` enriched /\
    (normalized_address <$> candidates r) `sublist_of` (label <$> suggestions) /\
    (m = 1 ->
     (forall c kept, bbox_filter bb enriched = c :: kept -> candidates r = [c]) /\
     (forall first others, enriched = first :: others ->
        (first ∈ bbox_filter bb enriched -> candidates r = [first]) /\
        ((forall minLon minLat maxLon maxLat,
            bb <> Some [minLon; minLat; maxLon; maxLat]) ->
         candidates r = [first]))).
Proof.
  intros suggestions Henc Hs Hall. subst suggestions.
  fold (suggestions_of data) in *.
  unfold Promise_all in Hall. simpl in Hall.
  rewrite (all_returned_imap _ _ _
             (toCandidate_completion encodeURIComponent net includeRaw)) in Hall.
  injection Hall as Hall.
  fold (enrich_all encodeURIComponent net includeRaw (suggestions_of data)) in Hall.
  subst enriched.
  set (enriched := enrich_all encodeURIComponent net includeRaw (suggestions_of data)).
  eexists. split; [by eapply resolveAddress_returned|]. simpl. fold enriched.
  assert (slice0 m (bbox_filter bb enriched) `sublist_of` enriched) as Hsub.
  { etrans; [apply slice0_sublist | apply bbox_filter_sublist]. }
  split; [apply enrich_all_labels|]. split; [exact Hsub|]. split.
  { rewrite <- (enrich_all_labels encodeURIComponent net includeRaw).
    by apply fmap_sublist. }
  intros ->. rewrite slice0_take by lia. change (Z.to_nat 1) with 1%nat.
  assert (forall c kept,
            bbox_filter bb enriched = c :: kept ->
            take 1 (bbox_filter bb enriched) = [c])
    as Hfirst by (by intros c kept ->).
  split; [exact Hfirst|].
  intros first others Hen. rewrite Hen in *. split.
  - intros [kept Hk]%bbox_filter_head. by apply (Hfirst first kept).
  - intros Hnot. apply (Hfirst first others).
    unfold bbox_filter.
    destruct bb as [[|x0 [|y0 [|x1 [|y1 [|e l]]]]]|]; try reflexivity.
    by destruct (Hnot x0 y0 x1 y1).
Qed.

Lemma order_preserved_witness :
  returned_candidates
    (resolveAddress identity_encoding sample_net "1234 MAIN ST" 1 None false)
  = [sw_main_candidate].
Proof.
  destruct (order_preserved identity_encoding sample_net "1234 MAIN ST" 1 None false
              200 {| Suggest.candidates := Some [sw_main; se_main; n_main] |}
              [sw_main_candidate; se_main_candidate; n_main_candidate])
    as (r & Hr & _ & _ & _ & Hone).
  - eexists. reflexivity.
  - reflexivity.
  - vm_compute. reflexivity.
  - unfold returned_candidates. rewrite Hr.
    destruct (Hone eq_refl) as [_ Hfirst].
    destruct (Hfirst _ _ eq_refl) as [_ Hnobox].
    apply Hnobox. discriminate.
Defined.

(** C8, as stated, fails in its last part: asked for one result inside the
    east-side box, with the sample services listing three suggestions of which
    only the second is located inside the box, [resolveAddress] returns the
    candidate of the second suggestion, not of the first. *)
Lemma first_suggestion_counterexample :
  suggest_service sample_net "1234 MAIN ST" 1
  = answer200 {| Suggest.candidates := Some [sw_main; se_main; n_main] |} /\
  returned_candidates
    (resolveAddress identity_encoding sample_net "1234 MAIN ST" 1
       (Some east_side) false)
  = [se_main_candidate] /\
  normalized_address se_main_candidate = label se_main /\
  normalized_address se_main_candidate <> label sw_main.
Proof.
  split; [reflexivity|]. split; [|split; [reflexivity | discriminate]].
  unfold returned_candidates. by rewrite sample_run_east_side.
Qed.

(** ** Requests issued *)

(** The cases of one geocoding resolution: whether the address can be
    encoded, and what each of the two services answers. *)
Ltac geocode_cases enc net :=
  rewrite ?geocodeWithArcGIS_trace, ?geocodeWithWorldGeocoder_trace;
  unfold requested, logged, caught, yields, fetch_error;
  destruct (enc _);
  [ destruct (oregon_geocoder net _) as [|[[] ? [|[[[|? ?]|]]]]];
    destruct (world_geocoder net _) as [|[[] ? [|[[[|? ?]|]]]]]
  | ];
  simpl.

Lemma filter_none {A} (P : A -> bool) (l : list A) :
  Forall (fun a => P a = false) l -> filter (fun a => P a) l = [].
Proof.
  induction 1 as [|a l Ha _ IH]; [reflexivity|].
  rewrite filter_cons_False; [exact IH | rewrite Ha; simpl; tauto].
Qed.

Lemma resolutions_launched_Permutation t1 t2 :
  t1 ≡ₚ t2 -> resolutions_launched t1 = resolutions_launched t2.
Proof. unfold resolutions_launched. by intros ->. Qed.

Lemma resolutions_of_geocode enc net address :
  resolutions_launched (trace (geocodeWithArcGIS enc net address)) = 1%nat.
Proof. unfold resolutions_launched. geocode_cases enc net; reflexivity. Qed.

Lemma resolutions_of_all enc net (ss : list PropertySuggestion) :
  resolutions_launched
    (concat ((fun s => trace (geocodeWithArcGIS enc net (label s))) <$> ss))
  = length ss.
Proof.
  induction ss as [|s ss IH]; [reflexivity|].
  rewrite fmap_cons. simpl. unfold resolutions_launched in *.
  rewrite filter_app, length_app, IH.
  pose proof (resolutions_of_geocode enc net (label s)) as H1.
  unfold resolutions_launched in H1. by rewrite H1.
Qed.

Lemma no_suggest_call_in_geocode enc net address :
  Forall (fun ev => is_suggest_call ev = false)
    (trace (geocodeWithArcGIS enc net address)).
Proof. geocode_cases enc net; repeat constructor. Qed.

Lemma no_suggest_call_in_geocoding enc net (ss : list PropertySuggestion) :
  Forall (fun ev => is_suggest_call ev = false)
    (concat ((fun s => trace (geocodeWithArcGIS enc net (label s))) <$> ss)).
Proof.
  induction ss as [|s ss IH]; [constructor|].
  rewrite fmap_cons. simpl. apply Forall_app. split; [|exact IH].
  apply no_suggest_call_in_geocode.
Qed.

Lemma resolveAddress_resolutions enc net q m bb includeRaw st data :
  is_Some (enc q) ->
  suggest_service net q m
  = Resolved {| ok := true; status := st; body := Json data |} ->
  resolutions_launched (trace (resolveAddress enc net q m bb includeRaw))
  = length (suggestions_of data).
Proof.
  intros Henc Hs.
  rewrite (resolutions_launched_Permutation _ _
             (resolveAddress_trace_Permutation _ _ _ _ _ _ _ _ Henc Hs)).
  unfold resolutions_launched. rewrite filter_cons_False by (simpl; tauto).
  apply resolutions_of_all.
Qed.

(** C10, as the code has it.  A call makes at most one suggestion request:
    none if the query cannot be encoded, and else exactly one, for the query
    and with count [maxResults].  When the lookup succeeds it is the first
    event of the call, and one geocoding resolution is launched per suggestion
    the service lists, however many these are.  When the service lists at most
    [maxResults] suggestions, at most [maxResults] resolutions are launched,
    and the result is exactly the candidates of those suggestions that pass
    the bounding-box filter: nothing is truncated and nothing is added. *)
Theorem lookup_limit encodeURIComponent net q m bb includeRaw :
  let run := resolveAddress encodeURIComponent net q m bb includeRaw in
  filter (fun ev => is_suggest_call ev) (trace run)
  = match encodeURIComponent q with
    | Some _ => [GET_suggest q m]
    | None => []
    end /\
  forall st data,
    is_Some (encodeURIComponent q) ->
    suggest_service net q m
    = Resolved {| ok := true; status := st; body := Json data |} ->
    let suggestions := default [] (Suggest.candidates data) in
    head (trace run) = Some (GET_suggest q m) /\
    resolutions_launched (trace run) = length suggestions /\
    exists enriched r,
      completion (Promise_all (arrival net)
                    (imap (toCandidate encodeURIComponent net includeRaw)
                          suggestions))
      = Returned enriched /\
      length enriched = length suggestions /\
      completion run = Returned r /\
      (Z.of_nat (length suggestions) <= m ->
       Z.of_nat (resolutions_launched (trace run)) <= m /\
       candidates r = bbox_filter bb enriched /\
       Z.of_nat (length (candidates r)) <= m).
Proof.
  intros run. subst run. split.
  - destruct (encodeURIComponent q) as [encoded|] eqn:Henc;
      [|by rewrite (resolveAddress_unencodable _ _ _ _ _ _ Henc)].
    assert (is_Some (encodeURIComponent q)) as Hsome by (by eexists).
    destruct (suggest_service net q m) as [|[[] st [|data]]] eqn:Hs;
      try (destruct (resolveAddress_thrown encodeURIComponent net q m bb includeRaw)
             as (cause & ->); [exact Hsome | by rewrite Hs | reflexivity]).
    rewrite (resolveAddress_trace _ _ _ _ _ _ _ _ Hsome Hs).
    rewrite filter_cons_True by done. f_equal.
    apply filter_none. rewrite join_traces_Permutation.
    apply no_suggest_call_in_geocoding.
  - intros st data Henc Hs suggestions. subst suggestions.
    fold (suggestions_of data) in *.
    pose proof (resolveAddress_resolutions _ _ _ _ bb includeRaw _ _ Henc Hs)
      as Hcount.
    split; [by rewrite (resolveAddress_trace _ _ _ _ _ _ _ _ Henc Hs)|].
    split; [exact Hcount|].
    exists (enrich_all encodeURIComponent net includeRaw (suggestions_of data)).
    eexists.
    split; [apply all_returned_imap, toCandidate_completion|].
    split; [apply length_imap|].
    split; [by eapply resolveAddress_returned|]. simpl.
    intros Hlen. split; [by rewrite Hcount|].
    pose proof (sublist_length _ _
      (bbox_filter_sublist bb
         (enrich_all encodeURIComponent net includeRaw (suggestions_of data))))
      as Hle.
    assert (length (enrich_all encodeURIComponent net includeRaw (suggestions_of data))
            = length (suggestions_of data)) as Hen by apply length_imap.
    rewrite slice0_take by lia. rewrite take_ge by lia. split; [reflexivity | lia].
Qed.

Lemma lookup_limit_witness :
  resolutions_launched
    (trace (resolveAddress identity_encoding sample_net "1234 MAIN ST" 10
              (Some east_side) false))
  = 3%nat.
Proof.
  destruct (lookup_limit identity_encoding sample_net "1234 MAIN ST" 10
              (Some east_side) false) as [_ Hrun].
  destruct (Hrun 200 {| Suggest.candidates := Some [sw_main; se_main; n_main] |})
    as (_ & Hcount & _).
  - eexists. reflexivity.
  - reflexivity.
  - exact Hcount.
Defined.

(** C10, as stated, fails: asked for one result, the sample suggestion service
    still lists three suggestions; three geocoding resolutions are launched,
    and the one candidate returned is that of the second suggestion, which
    takes the place of the first one, removed by the box. *)
Lemma lookup_limit_counterexample :
  suggest_service sample_net "1234 MAIN ST" 1
  = answer200 {| Suggest.candidates := Some [sw_main; se_main; n_main] |} /\
  resolutions_launched
    (trace (resolveAddress identity_encoding sample_net "1234 MAIN ST" 1
              (Some east_side) false))
  = 3%nat /\
  ~ (Z.of_nat 3 <= 1) /\
  returned_candidates
    (resolveAddress identity_encoding sample_net "1234 MAIN ST" 1
       (Some east_side) false)
  = [se_main_candidate] /\
  normalized_address se_main_candidate = label se_main.
Proof.
  split; [reflexivity|]. split; [vm_compute; reflexivity|]. split; [lia|].
  split; [|reflexivity].
  unfold returned_candidates. by rewrite sample_run_east_side.
Qed.

(** * Further properties of the client and of the tool handler *)

(** ** Requests and log lines of the geocoding resolver *)

(** X1. No retries inside one geocoding resolution.  [geocodeWithArcGIS]
    requests the Oregon geocoder once if the address can be put into a URL,
    and not at all if [encodeURIComponent] throws.  It requests the World
    geocoder once if the address can be encoded and the Oregon call yields no
    candidate, and not at all otherwise.  Both requests carry the address
    followed by ", Portland, OR". *)
Theorem each_tier_tried_once encodeURIComponent net address :
  let singleLine := address +:+ ", Portland, OR" in
  let tr := trace (geocodeWithArcGIS encodeURIComponent net address) in
  filter (fun ev => is_oregon_call ev) tr
  = match encodeURIComponent singleLine with
    | Some _ => [GET_arcgisGeocoder singleLine]
    | None => []
    end /\
  filter (fun ev => is_world_call ev) tr
  = match encodeURIComponent singleLine, tier (oregon_geocoder net singleLine) with
    | Some _, None => [GET_arcgisWorldGeocoder singleLine]
    | _, _ => []
    end.
Proof.
  intros singleLine tr. subst singleLine tr.
  change ", Portland, OR" with PORTLAND_SUFFIX.
  geocode_cases encodeURIComponent net; split; reflexivity.
Qed.

Lemma requests_of_geocode enc net address :
  let requests :=
    filter (fun ev => is_request ev) (trace (geocodeWithArcGIS enc net address)) in
  (length requests <= 2)%nat /\
  (is_Some (enc (address +:+ PORTLAND_SUFFIX)) -> 1 <= length requests)%nat.
Proof.
  geocode_cases enc net; (split; [lia|]); try (intros _; lia).
  by intros [? ?].
Qed.

Lemma requests_of_all enc net (ss : list PropertySuggestion) :
  let requests :=
    filter (fun ev => is_request ev)
      (concat ((fun s => trace (geocodeWithArcGIS enc net (label s))) <$> ss)) in
  (length requests <= 2 * length ss)%nat /\
  ((forall s, s ∈ ss -> is_Some (enc (label s +:+ PORTLAND_SUFFIX))) ->
   length ss <= length requests)%nat.
Proof.
  induction ss as [|s ss [IHle IHge]]; [simpl; split; [lia | intros; lia]|].
  rewrite fmap_cons. simpl. rewrite filter_app, length_app.
  destruct (requests_of_geocode enc net (label s)) as [Hle Hge]. split; [lia|].
  intros Henc.
  specialize (Hge (Henc s (list_elem_of_here _ _))).
  specialize (IHge (fun s' Hs' => Henc s' (list_elem_of_further _ _ _ Hs'))).
  lia.
Qed.

(** X2. Request budget of one call: when the suggestion service lists [n]
    suggestions, [resolveAddress] makes at least 1 and at most [1 + 2 * n]
    HTTP requests, the first of which is the suggestion lookup, and at least
    [1 + n] when every suggested label can be put into a URL. *)
Theorem request_budget encodeURIComponent net q m bb includeRaw st data :
  let suggestions := default [] (Suggest.candidates data) in
  let n := length suggestions in
  let requests :=
    filter (fun ev => is_request ev)
      (trace (resolveAddress encodeURIComponent net q m bb includeRaw)) in
  is_Some (encodeURIComponent q) ->
  suggest_service net q m
  = Resolved {| ok := true; status := st; body := Json data |} ->
  head requests = Some (GET_suggest q m) /\
  (1 <= length requests <= 1 + 2 * n)%nat /\
  ((forall s, s ∈ suggestions ->
      is_Some (encodeURIComponent (label s +:+ ", Portland, OR"))) ->
   1 + n <= length requests)%nat.
Proof.
  intros suggestions n requests Henc Hs. subst suggestions n requests.
  fold (suggestions_of data).
  split; [by rewrite (resolveAddress_trace _ _ _ _ _ _ _ _ Henc Hs)|].
  rewrite (resolveAddress_trace_Permutation _ _ _ _ _ _ _ _ Henc Hs).
  rewrite filter_cons_True by (simpl; tauto). simpl.
  destruct (requests_of_all encodeURIComponent net (suggestions_of data))
    as [Hle Hge].
  split; [lia|]. intros Hall. specialize (Hge Hall). lia.
Qed.

Lemma request_budget_witness :
  (1 <= length (filter (fun ev => is_request ev)
                  (trace (resolveAddress identity_encoding sample_net
                            "1234 MAIN ST" 10 None false)))
   <= 7)%nat.
Proof.
  apply (request_budget identity_encoding sample_net "1234 MAIN ST" 10 None false
           200 {| Suggest.candidates := Some [sw_main; se_main; n_main] |}).
  - eexists. reflexivity.
  - reflexivity.
Defined.

(** X3. What gets logged: [geocodeWithArcGIS] writes its Oregon error line
    exactly when building the URL or the Oregon call threw, with the error
    that was thrown: a [URIError] for an address that cannot be encoded, the
    network error of a rejected request, or the decoding error of a 2xx body.
    [geocodeWithWorldGeocoder] writes its World error line exactly when
    building the URL or the World call threw.  A non-2xx status and an empty
    candidate list are passed over without a log line. *)
Theorem geocoder_failures_logged encodeURIComponent net address error :
  let singleLine := address +:+ ", Portland, OR" in
  (console_error "ArcGIS Oregon geocoder error:" error
     ∈ trace (geocodeWithArcGIS encodeURIComponent net address) <->
   match encodeURIComponent singleLine with
   | None => error = URIError
   | Some _ =>
       match oregon_geocoder net singleLine with
       | Unreachable => error = NetworkError
       | Resolved {| ok := true; body := Malformed |} => error = SyntaxError
       | _ => False
       end
   end) /\
  (console_error "ArcGIS World geocoder error:" error
     ∈ trace (geocodeWithWorldGeocoder encodeURIComponent net address) <->
   match encodeURIComponent singleLine with
   | None => error = URIError
   | Some _ =>
       match world_geocoder net singleLine with
       | Unreachable => error = NetworkError
       | Resolved {| ok := true; body := Malformed |} => error = SyntaxError
       | _ => False
       end
   end).
Proof.
  intros singleLine. subst singleLine. change ", Portland, OR" with PORTLAND_SUFFIX.
  geocode_cases encodeURIComponent net;
    rewrite ?elem_of_cons, ?elem_of_nil; split; split; intros H;
    try contradiction; try (decompose [or] H; try discriminate; try contradiction);
    try congruence; try (subst; auto).
Qed.

(** ** Failure and edge cases of [resolveAddress] *)

(** X4. A failed suggestion lookup: [resolveAddress] makes no geocoder
    request (the lookup is its only event) and throws the lookup's error
    wrapped once: the network error of a rejected request, the HTTP status of
    a non-2xx response whatever its body, or the decoding error of a 2xx
    body. *)
Theorem failed_lookup_is_wrapped encodeURIComponent net q m bb includeRaw :
  is_Some (encodeURIComponent q) ->
  call_failed (suggest_service net q m) ->
  trace (resolveAddress encodeURIComponent net q m bb includeRaw)
  = [GET_suggest q m] /\
  completion (resolveAddress encodeURIComponent net q m bb includeRaw)
  = Thrown (FailedToResolveAddress
              match suggest_service net q m with
              | Unreachable => NetworkError
              | Resolved response =>
                  if ok response then SyntaxError
                  else ApiRequestFailed (status response)
              end).
Proof.
  intros [encoded Henc]. unfold resolveAddress, uriComponent. rewrite Henc.
  destruct (suggest_service net q m) as [|[[] st [|data]]]; simpl; intros H;
    try contradiction; split; reflexivity.
Qed.

Lemma failed_lookup_is_wrapped_witness :
  resolveAddress identity_encoding down_net "1234 MAIN ST" 10 None false
  = (Thrown (FailedToResolveAddress (ApiRequestFailed 503)),
     [GET_suggest "1234 MAIN ST" 10]).
Proof.
  destruct (failed_lookup_is_wrapped identity_encoding down_net "1234 MAIN ST" 10
              None false) as [Ht Hc].
  - eexists. reflexivity.
  - exact I.
  - destruct (resolveAddress identity_encoding down_net "1234 MAIN ST" 10 None false)
      as [c t].
    simpl in Ht, Hc. by rewrite Ht, Hc.
Defined.

(** X5. No suggestions: when the service answers 2xx with a body whose
    [candidates] member is missing or empty, [resolveAddress] returns an empty
    candidate list together with the query, [maxResults] and [bbox] it was
    given, and makes no geocoder request. *)
Theorem no_suggestions_no_geocoding encodeURIComponent net q m bb includeRaw st data :
  is_Some (encodeURIComponent q) ->
  suggest_service net q m
  = Resolved {| ok := true; status := st; body := Json data |} ->
  Suggest.candidates data = None \/ Suggest.candidates data = Some [] ->
  resolveAddress encodeURIComponent net q m bb includeRaw
  = (Returned {| candidates := []; query := q; max_results := m; bbox := bb |},
     [GET_suggest q m]).
Proof.
  intros Henc Hs Hempty.
  assert (suggestions_of data = []) as Hnone.
  { unfold suggestions_of. by destruct Hempty as [-> | ->]. }
  pose proof (resolveAddress_returned _ _ _ _ bb includeRaw _ _ Henc Hs) as Hc.
  pose proof (resolveAddress_trace_Permutation _ _ _ _ bb includeRaw _ _ Henc Hs) as Ht.
  rewrite Hnone in Hc, Ht. simpl in Ht. apply Permutation_singleton_r in Ht.
  destruct (resolveAddress encodeURIComponent net q m bb includeRaw) as [c t].
  simpl in Hc, Ht.
  subst c t. f_equal. f_equal. f_equal.
  unfold slice0, bbox_filter, enrich_all. simpl.
  destruct bb as [[|x0 [|y0 [|x1 [|y1 [|e l]]]]]|]; simpl; apply take_nil.
Qed.

Lemma no_suggestions_no_geocoding_witness :
  resolveAddress identity_encoding (listing_net None) "zzz" 10 (Some east_side) true
  = (Returned {| candidates := []; query := "zzz"; max_results := 10;
                 bbox := Some east_side |},
     [GET_suggest "zzz" 10]).
Proof.
  apply (no_suggestions_no_geocoding identity_encoding (listing_net None) "zzz" 10
           (Some east_side) true 200 {| Suggest.candidates := None |}).
  - eexists. reflexivity.
  - reflexivity.
  - left. reflexivity.
Defined.


(** X6. Fields of a returned candidate: [taxlot_id] is never set and
    [property_id] is never the empty string.  Without [includeRaw] no
    candidate carries [raw]; with it, [raw] is one of the suggestions the
    service listed, the candidate's address is that suggestion's label and
    its [property_id] is that suggestion's value, if not empty. *)
Theorem candidate_fields encodeURIComponent net q m bb includeRaw r c :
  completion (resolveAddress encodeURIComponent net q m bb includeRaw)
  = Returned r ->
  c ∈ candidates r ->
  taxlot_id c = None /\
  property_id c <> Some "" /\
  (includeRaw = false -> raw c = None) /\
  (includeRaw = true ->
   exists st data s,
     suggest_service net q m
     = Resolved {| ok := true; status := st; body := Json data |} /\
     s ∈ default [] (Suggest.candidates data) /\
     raw c = Some s /\
     normalized_address c = label s /\
     property_id c = truthy_string (value s)).
Proof.
  intros (st & data & _ & Hs & ->)%resolveAddress_inv Hc. simpl in Hc.
  apply (sublist_subseteq _ _ (slice0_sublist _ _)) in Hc.
  apply (sublist_subseteq _ _ (bbox_filter_sublist _ _)) in Hc.
  apply elem_of_enrich_all in Hc as (i & s & Hi & ->).
  destruct (geocoded encodeURIComponent net (label s)); simpl;
    (split; [reflexivity|]); (split; [by destruct (value s) as [[|]|]|]);
    (split; [by intros ->|]); intros ->; exists st, data, s;
    (split; [exact Hs|]); (split; [by eapply list_elem_of_lookup_2|]);
    repeat split.
Qed.

Lemma candidate_fields_witness :
  taxlot_id se_main_candidate = None /\ raw se_main_candidate = None.
Proof.
  destruct (candidate_fields identity_encoding sample_net "1234 MAIN ST" 10 None false
              {| candidates := [sw_main_candidate; se_main_candidate; n_main_candidate];
                 query := "1234 MAIN ST"; max_results := 10; bbox := None |}
              se_main_candidate) as (Ht & _ & Hraw & _).
  - vm_compute. reflexivity.
  - simpl. apply list_elem_of_further, list_elem_of_here.
  - split; [exact Ht | by apply Hraw].
Defined.

Lemma slice0_negative {A} (m : Z) (l : list A) :
  m < 0 -> slice0 m l = take (length l - Z.to_nat (- m)) l.
Proof.
  intros Hm. unfold slice0.
  destruct (Z.ltb_spec m 0) as [_|?]; [|lia].
  f_equal. lia.
Qed.

(** X7. A [maxResults] that is not positive: every suggestion is still
    geocoded, and then [slice(0, maxResults)] cuts the filtered list from the
    other end.  With [maxResults = 0] nothing is returned; with a negative
    [maxResults] the filtered candidates are returned except the last
    [-maxResults] of them. *)
Theorem nonpositive_maxResults encodeURIComponent net q m bb includeRaw st data enriched :
  is_Some (encodeURIComponent q) ->
  suggest_service net q m
  = Resolved {| ok := true; status := st; body := Json data |} ->
  completion (Promise_all (arrival net)
                (imap (toCandidate encodeURIComponent net includeRaw)
                      (default [] (Suggest.candidates data))))
  = Returned enriched ->
  m <= 0 ->
  exists r,
    completion (resolveAddress encodeURIComponent net q m bb includeRaw)
    = Returned r /\
    resolutions_launched
      (trace (resolveAddress encodeURIComponent net q m bb includeRaw))
    = length (default [] (Suggest.candidates data)) /\
    (m = 0 -> candidates r = []) /\
    (m < 0 ->
     candidates r
     = take (length (bbox_filter bb enriched) - Z.to_nat (- m))
            (bbox_filter bb enriched)).
Proof.
  intros Henc Hs Hall Hm. fold (suggestions_of data) in *.
  unfold Promise_all in Hall. simpl in Hall.
  rewrite (all_returned_imap _ _ _
             (toCandidate_completion encodeURIComponent net includeRaw)) in Hall.
  injection Hall as <-.
  fold (enrich_all encodeURIComponent net includeRaw (suggestions_of data)).
  eexists. split; [by eapply resolveAddress_returned|].
  split; [by eapply resolveAddress_resolutions|].
  simpl. split.
  - intros ->. rewrite slice0_take by lia. apply take_0.
  - intros Hneg. by apply slice0_negative.
Qed.

Lemma nonpositive_maxResults_witness :
  returned_candidates
    (resolveAddress identity_encoding sample_net "1234 MAIN ST" (-1) None false)
  = [sw_main_candidate; se_main_candidate].
Proof.
  destruct (nonpositive_maxResults identity_encoding sample_net "1234 MAIN ST" (-1)
              None false
              200 {| Suggest.candidates := Some [sw_main; se_main; n_main] |}
              [sw_main_candidate; se_main_candidate; n_main_candidate])
    as (r & Hr & _ & _ & Hneg).
  - eexists. reflexivity.
  - reflexivity.
  - vm_compute. reflexivity.
  - lia.
  - unfold returned_candidates. rewrite Hr, Hneg by lia. reflexivity.
Defined.

Lemma returned_candidate_in_box enc net q m includeRaw minLon minLat maxLon maxLat r c :
  completion (resolveAddress enc net q m (Some [minLon; minLat; maxLon; maxLat])
                includeRaw)
  = Returned r ->
  c ∈ candidates r ->
  in_bbox minLon minLat maxLon maxLat c = true /\
  exists i s, c = buildCandidate includeRaw i s (geocoded enc net (label s)).
Proof.
  intros (st & data & _ & Hs & ->)%resolveAddress_inv Hc. simpl in Hc.
  apply (sublist_subseteq _ _ (slice0_sublist _ _)) in Hc.
  apply list_elem_of_filter in Hc as [Hbox Hc].
  split; [by apply Is_true_true|].
  apply elem_of_enrich_all in Hc as (i & s & _ & ->). eauto.
Qed.

(** X8. Candidates that were not geocoded are filtered by the default point:
    with a four-component [bbox], a returned candidate tagged
    [portlandmaps_api] sits at (-122.6765, 45.5155), so it is returned only if
    the box contains that point. *)
Theorem unlocated_candidates_filtered_at_center
    encodeURIComponent net q m includeRaw minLon minLat maxLon maxLat r c :
  completion (resolveAddress encodeURIComponent net q m
                (Some [minLon; minLat; maxLon; maxLat]) includeRaw)
  = Returned r ->
  c ∈ candidates r ->
  source c = portlandmaps_api ->
  (x_lon c = - (1226765 # 10000) /\ y_lat c = 455155 # 10000)%Q /\
  ((minLon <= - (1226765 # 10000))%Q /\ (- (1226765 # 10000) <= maxLon)%Q) /\
  ((minLat <= 455155 # 10000)%Q /\ (455155 # 10000 <= maxLat)%Q).
Proof.
  intros Hr Hc Hsrc.
  destruct (returned_candidate_in_box _ _ _ _ _ _ _ _ _ _ _ Hr Hc)
    as (Hbox%in_bbox_spec & i & s & ->).
  destruct (geocoded encodeURIComponent net (label s)); [discriminate Hsrc|].
  simpl in Hbox. split; [split; reflexivity | exact Hbox].
Qed.

Lemma unlocated_candidates_filtered_at_center_witness :
  ((- (123 # 1) <= - (1226765 # 10000))%Q /\ (- (1226765 # 10000) <= - (122 # 1))%Q) /\
  ((45 # 1 <= 455155 # 10000)%Q /\ (455155 # 10000 <= 46 # 1)%Q).
Proof.
  apply (unlocated_candidates_filtered_at_center
           identity_encoding sample_net "1234 MAIN ST" 10 false
           (- (123 # 1))%Q (45 # 1)%Q (- (122 # 1))%Q (46 # 1)%Q
           {| candidates := [sw_main_candidate; se_main_candidate; n_main_candidate];
              query := "1234 MAIN ST"; max_results := 10; bbox := Some metro_area |}
           n_main_candidate).
  - vm_compute. reflexivity.
  - simpl. apply list_elem_of_further, list_elem_of_further, list_elem_of_here.
  - reflexivity.
Defined.

(** X9. A box with swapped bounds matches nothing: with a four-component
    [bbox] whose [maxLon] is below its [minLon], or whose [maxLat] is below its
    [minLat], a call whose lookup succeeds returns no candidate. *)
Theorem swapped_box_returns_nothing
    encodeURIComponent net q m includeRaw minLon minLat maxLon maxLat r :
  (maxLon < minLon)%Q \/ (maxLat < minLat)%Q ->
  completion (resolveAddress encodeURIComponent net q m
                (Some [minLon; minLat; maxLon; maxLat]) includeRaw)
  = Returned r ->
  candidates r = [].
Proof.
  intros Hswap Hr.
  destruct (candidates r) as [|c cs] eqn:Hcs; [reflexivity|exfalso].
  assert (c ∈ candidates r) as Hc by (rewrite Hcs; apply list_elem_of_here).
  destruct (returned_candidate_in_box _ _ _ _ _ _ _ _ _ _ _ Hr Hc)
    as (((Hx0 & Hx1) & (Hy0 & Hy1))%in_bbox_spec & _).
  destruct Hswap as [H | H].
  - apply (Qlt_not_le _ _ H). by eapply Qle_trans.
  - apply (Qlt_not_le _ _ H). by eapply Qle_trans.
Qed.

Lemma swapped_box_returns_nothing_witness :
  candidates {| candidates := []; query := "1234 MAIN ST"; max_results := 10;
                bbox := Some swapped_box |} = [].
Proof.
  apply (swapped_box_returns_nothing identity_encoding sample_net "1234 MAIN ST" 10
           false (- (122 # 1))%Q (45 # 1)%Q (- (123 # 1))%Q (46 # 1)%Q).
  - left. reflexivity.
  - vm_compute. reflexivity.
Defined.

Lemma sublist_lookup_mono {A} (l1 l2 : list A) i j a b :
  l1 `sublist_of` l2 -> (i <= j)%nat ->
  l1 !! i = Some a -> l1 !! j = Some b ->
  exists i' j', (i' <= j')%nat /\ l2 !! i' = Some a /\ l2 !! j' = Some b.
Proof.
  intros Hsub. revert i j.
  induction Hsub as [|x l1 l2 Hsub IH|x l1 l2 Hsub IH]; intros i j Hij Hi Hj.
  - discriminate.
  - destruct i as [|i], j as [|j]; simpl in *; try lia.
    + exists 0%nat, 0%nat. auto.
    + assert (b ∈ l2) as [k Hk]%list_elem_of_lookup_1.
      { eapply sublist_subseteq; [exact Hsub|]. by eapply list_elem_of_lookup_2. }
      exists 0%nat, (S k). repeat split; [lia | done | done].
    + destruct (IH i j) as (i' & j' & ? & ? & ?); [lia | done | done |].
      exists (S i'), (S j'). repeat split; [lia | done | done].
  - destruct (IH i j) as (i' & j' & ? & ? & ?); [lia | done | done |].
    exists (S i'), (S j'). repeat split; [lia | done | done].
Qed.

(** X10. Ranking without geocoding: if geocoding finds nothing for any
    address, the scores of the returned candidates never increase along the
    returned list, and all of them lie between 50 and 100. *)
Theorem scores_descend_without_geocoding
    encodeURIComponent net q m bb includeRaw r i j ci cj :
  (forall address,
     completion (geocodeWithArcGIS encodeURIComponent net address)
     = Returned None) ->
  completion (resolveAddress encodeURIComponent net q m bb includeRaw)
  = Returned r ->
  (i <= j)%nat ->
  candidates r !! i = Some ci ->
  candidates r !! j = Some cj ->
  (50 <= score cj)%Q /\ (score cj <= score ci)%Q /\ (score ci <= 100)%Q.
Proof.
  intros Hnone (st & data & _ & Hs & ->)%resolveAddress_inv Hij Hi Hj.
  simpl in Hi, Hj.
  set (enriched := enrich_all encodeURIComponent net includeRaw (suggestions_of data))
    in *.
  assert (slice0 m (bbox_filter bb enriched) `sublist_of` enriched) as Hsub.
  { etrans; [apply slice0_sublist | apply bbox_filter_sublist]. }
  destruct (sublist_lookup_mono _ _ _ _ _ _ Hsub Hij Hi Hj)
    as (i' & j' & Hij' & Hi' & Hj').
  subst enriched.
  unfold enrich_all in Hi', Hj'. rewrite list_lookup_imap in Hi', Hj'.
  destruct (suggestions_of data !! i') as [si|]; [|discriminate].
  destruct (suggestions_of data !! j') as [sj|]; [|discriminate].
  injection Hi' as <-. injection Hj' as <-.
  assert (forall s, geocoded encodeURIComponent net (label s) = None) as Hg.
  { intros s. specialize (Hnone (label s)).
    rewrite geocodeWithArcGIS_completion in Hnone. congruence. }
  rewrite !Hg. simpl. unfold Qle, baseScore. simpl. lia.
Qed.

Lemma scores_descend_without_geocoding_witness :
  (50 <= 90)%Q /\ (90 <= 100)%Q /\ (100 <= 100)%Q.
Proof.
  apply (scores_descend_without_geocoding identity_encoding ungeocoded_net
           "1234 MAIN ST" 10 None false
           {| candidates :=
                enrich_all identity_encoding ungeocoded_net false
                  [sw_main; se_main; n_main];
              query := "1234 MAIN ST"; max_results := 10; bbox := None |}
           0%nat 2%nat
           (buildCandidate false 0 sw_main None) (buildCandidate false 2 n_main None)).
  - intros address. reflexivity.
  - reflexivity.
  - lia.
  - reflexivity.
  - reflexivity.
Defined.

(** ** [searchAddress] *)

Lemma searchAddress_unencodable enc net address :
  enc address = None ->
  searchAddress enc net address
  = (Rejected (FailedToSearchAddress (Cause URIError)), []).
Proof. intros Henc. unfold searchAddress, uriComponent. by rewrite Henc. Qed.

Lemma searchAddress_encodable enc net address :
  is_Some (enc address) ->
  searchAddress enc net address
  = (match suggest_service net address 10 with
     | Unreachable => Rejected (FailedToSearchAddress (Cause NetworkError))
     | Resolved {| ok := false; status := st |} =>
         Rejected (FailedToSearchAddress (Cause (ApiRequestFailed st)))
     | Resolved {| ok := true; body := Malformed |} =>
         Rejected (FailedToSearchAddress (Cause SyntaxError))
     | Resolved {| ok := true; body := Json data |} =>
         Fulfilled (suggestions_of data)
     end,
     [GET_suggest address 10]).
Proof.
  intros [encoded Henc]. unfold searchAddress, uriComponent. rewrite Henc.
  by destruct (suggest_service net address 10) as [|[[] st [|data]]].
Qed.

(** X11. [searchAddress] makes at most one request: none when the address
    cannot be put into a URL, in which case it rejects with the [URIError]
    wrapped once, and else exactly one, the suggestion lookup for the address
    with a count of 10.  It then resolves to the suggestions the service lists
    (none if the [candidates] member is missing) when the call succeeds, and
    otherwise rejects with the lookup's error wrapped once: the network error,
    the HTTP status of a non-2xx response, or the decoding error. *)
Theorem searchAddress_policy encodeURIComponent net address :
  events (searchAddress encodeURIComponent net address)
  = match encodeURIComponent address with
    | Some _ => [GET_suggest address 10]
    | None => []
    end /\
  settled (searchAddress encodeURIComponent net address)
  = match encodeURIComponent address with
    | None => Rejected (FailedToSearchAddress (Cause URIError))
    | Some _ =>
        match suggest_service net address 10 with
        | Unreachable => Rejected (FailedToSearchAddress (Cause NetworkError))
        | Resolved response =>
            if ok response then
              match body response with
              | Json data => Fulfilled (default [] (Suggest.candidates data))
              | Malformed => Rejected (FailedToSearchAddress (Cause SyntaxError))
              end
            else
              Rejected (FailedToSearchAddress
                          (Cause (ApiRequestFailed (status response))))
        end
    end.
Proof.
  destruct (encodeURIComponent address) as [encoded|] eqn:Henc.
  - rewrite searchAddress_encodable by (by eexists).
    by destruct (suggest_service net address 10) as [|[[] st [|data]]].
  - by rewrite searchAddress_unencodable.
Qed.

(** X12. [searchAddress] and [resolveAddress] agree: when [searchAddress]
    resolves to a list of suggestions, [resolveAddress] with the same text,
    [maxResults = 10] and no [bbox] returns candidates whose addresses are the
    first ten labels of that list, in the same order, with the matching
    property identifiers. *)
Theorem search_then_resolve encodeURIComponent net address includeRaw suggestions :
  settled (searchAddress encodeURIComponent net address) = Fulfilled suggestions ->
  exists r,
    completion (resolveAddress encodeURIComponent net address 10 None includeRaw)
    = Returned r /\
    normalized_address <$> candidates r = take 10 (label <$> suggestions) /\
    property_id <$> candidates r
    = take 10 ((fun s => truthy_string (value s)) <$> suggestions).
Proof.
  destruct (encodeURIComponent address) as [encoded|] eqn:Henc;
    [|by rewrite searchAddress_unencodable].
  rewrite searchAddress_encodable by (by eexists).
  destruct (suggest_service net address 10) as [|[[] st [|data]]] eqn:Hs;
    simpl; try discriminate.
  intros [= <-].
  eexists. split; [eapply resolveAddress_returned; [by eexists | exact Hs]|].
  simpl. rewrite slice0_take by lia. change (Z.to_nat 10) with 10%nat.
  rewrite !fmap_take. split.
  - by rewrite enrich_all_labels.
  - f_equal. apply list_eq. intros i. unfold enrich_all.
    rewrite !list_lookup_fmap, list_lookup_imap.
    destruct (suggestions_of data !! i) as [s|]; simpl; [|reflexivity].
    by destruct (geocoded encodeURIComponent net (label s)).
Qed.

Lemma search_then_resolve_witness :
  normalized_address
    <$> returned_candidates
          (resolveAddress identity_encoding sample_net "1234 MAIN ST" 10 None true)
  = ["1234 SW MAIN ST"; "1234 SE MAIN ST"; "1234 N MAIN ST"].
Proof.
  destruct (search_then_resolve identity_encoding sample_net "1234 MAIN ST" true
              [sw_main; se_main; n_main]) as (r & Hr & Hlabels & _).
  - reflexivity.
  - unfold returned_candidates. rewrite Hr. exact Hlabels.
Defined.

(** ** The text methods *)

(** A loop whose iterations make no request settles as its iterations do:
    it is fulfilled if all of them are, and rejected with [error] if one of
    them is. *)
Lemma for_range_settles {St} (good bad : nat -> Prop) error
    first count (body : nat -> St -> Task St) s :
  (forall i r, (first <= i < first + count)%nat ->
     (good i /\ exists r', body i r = (Fulfilled r', [])) \/
     (bad i /\ body i r = (Rejected error, []))) ->
  ((forall i, (first <= i < first + count)%nat -> good i) /\
   exists r', for_range first count body s = (Fulfilled r', [])) \/
  ((exists i, (first <= i < first + count)%nat /\ bad i) /\
   for_range first count body s = (Rejected error, [])).
Proof.
  revert first s. induction count as [|count IH]; intros first s Hbody.
  - left. split; [intros; lia | by eexists].
  - simpl. destruct (Hbody first s) as [[Hg [s1 H1]] | [Hb H1]]; [lia | |].
    + destruct (IH (S first) s1) as [[Hall [s2 H2]] | [(i & Hi & Hb) H2]];
        [intros; apply Hbody; lia | |].
      * left. split.
        -- intros i Hi. destruct (decide (i = first)) as [->|]; [exact Hg|].
           apply Hall. lia.
        -- exists s2. run_task. rewrite H1. simpl. rewrite H2. reflexivity.
      * right. split; [exists i; split; [lia | exact Hb]|].
        run_task. rewrite H1. simpl. rewrite H2. reflexivity.
    + right. split; [exists first; split; [lia | exact Hb]|].
      run_task. rewrite H1. reflexivity.
Qed.

Lemma for_range_ext {St} first count (body1 body2 : nat -> St -> Task St) s :
  (forall i s, (first <= i < first + count)%nat -> body1 i s = body2 i s) ->
  for_range first count body1 s = for_range first count body2 s.
Proof.
  revert first s. induction count as [|count IH]; intros first s Hbody; [reflexivity|].
  simpl. rewrite Hbody by lia. run_task.
  destruct (body2 first s) as [[s1|e] t]; [|reflexivity].
  rewrite IH; [reflexivity|]. intros; apply Hbody; lia.
Qed.


Lemma ids_encode_iff enc k (ss : list PropertySuggestion) :
  ids_encode enc k ss <->
  forall i, (0 <= i < 0 + Nat.min (length ss) k)%nat -> id_encodes enc ss i.
Proof.
  unfold ids_encode, id_encodes. split.
  - intros H i Hi s v Hs Hv. apply (H i s v); [lia | done | done].
  - intros H i s v Hi Hs Hv.
    pose proof (lookup_lt_Some _ _ _ Hs) as Hlt.
    apply (H i ltac:(lia) s v Hs Hv).
Qed.

Lemma id_breaks_not_encode enc k (ss : list PropertySuggestion) :
  (exists i, (0 <= i < 0 + Nat.min (length ss) k)%nat /\ id_breaks enc ss i) ->
  ~ ids_encode enc k ss.
Proof.
  intros (i & Hi & s & v & Hs & Hv & Henc) H.
  destruct (H i s v) as [encoded He]; [lia | done | done | congruence].
Qed.

Ltac loop_body enc ss :=
  let i := fresh "i" in
  let r := fresh "r" in
  let Hi := fresh "Hi" in
  let s := fresh "s" in
  let Hs := fresh "Hs" in
  let v := fresh "v" in
  let Hv := fresh "Hv" in
  let w := fresh "w" in
  let Hw := fresh "Hw" in
  intros i r Hi;
  destruct (lookup_lt_is_Some_2 ss i) as [s Hs]; [lia|];
  rewrite Hs;
  destruct (truthy_string (value s)) as [v|] eqn:Hv;
  [ unfold uriComponent; destruct (enc v) as [w|] eqn:Hw;
    [ left; split;
      [ intros ? ? ? ?; simplify_eq; by eexists
      | eexists; reflexivity ]
    | right; split; [by exists s, v | reflexivity] ]
  | left; split;
    [ intros ? ? ? ?; simplify_eq
    | eexists; reflexivity ] ].

Lemma getZoningInfo_settles enc net address :
  settles_after_search enc 5 FailedToGetZoningInfo
    (searchAddress enc net address) (getZoningInfo enc net address).
Proof.
  unfold settles_after_search, getZoningInfo.
  destruct (searchAddress enc net address) as [[ss|e] t];
    unfold events, settled; simpl; step_task; simpl;
    [|split; [by rewrite ?app_nil_r | reflexivity]].
  destruct (length ss =? 0)%nat eqn:Hlen.
  { apply Nat.eqb_eq in Hlen. destruct ss; [|discriminate].
    split; [by rewrite ?app_nil_r|]. left. split; [|by eexists].
    intros i s v _ Hs. discriminate. }
  match goal with
  | |- context [for_range ?a ?b ?c ?d] =>
      destruct (for_range_settles (id_encodes enc ss) (id_breaks enc ss)
                  (Cause URIError) a b c d) as [[Hall [text ->]] | [Hbad ->]]
  end.
  - loop_body enc ss.
  - simpl. split; [by rewrite ?app_nil_r|]. left.
    split; [by apply ids_encode_iff | by eexists].
  - simpl. split; [by rewrite ?app_nil_r|]. right.
    split; [by apply id_breaks_not_encode | reflexivity].
Qed.

Lemma getPropertyInfo_settles enc net address :
  settles_after_search enc 3 FailedToGetPropertyInfo
    (searchAddress enc net address) (getPropertyInfo enc net address).
Proof.
  unfold settles_after_search, getPropertyInfo.
  destruct (searchAddress enc net address) as [[ss|e] t];
    unfold events, settled; simpl; step_task; simpl;
    [|split; [by rewrite ?app_nil_r | reflexivity]].
  destruct (length ss =? 0)%nat eqn:Hlen.
  { apply Nat.eqb_eq in Hlen. destruct ss; [|discriminate].
    split; [by rewrite ?app_nil_r|]. left. split; [|by eexists].
    intros i s v _ Hs. discriminate. }
  match goal with
  | |- context [for_range ?a ?b ?c ?d] =>
      destruct (for_range_settles (id_encodes enc ss) (id_breaks enc ss)
                  (Cause URIError) a b c d) as [[Hall [text ->]] | [Hbad ->]]
  end.
  - loop_body enc ss.
  - simpl. split; [by rewrite ?app_nil_r|]. left.
    split; [by apply ids_encode_iff | by eexists].
  - simpl. split; [by rewrite ?app_nil_r|]. right.
    split; [by apply id_breaks_not_encode | reflexivity].
Qed.

Lemma ids_encode_top enc (top : PropertySuggestion) rest :
  ids_encode enc 1 (top :: rest) <->
  forall v, truthy_string (value top) = Some v -> is_Some (enc v).
Proof.
  unfold ids_encode. split.
  - intros H v Hv. by apply (H 0%nat top v); [lia | |].
  - intros H i s v Hi Hs Hv. destruct i; [|lia]. simpl in Hs.
    injection Hs as <-. by apply H.
Qed.

Ltac top_match enc :=
  match goal with
  | |- context [truthy_string (value ?top)] =>
      let v := fresh "v" in
      let Hv := fresh "Hv" in
      let w := fresh "w" in
      let Hw := fresh "Hw" in
      rewrite ids_encode_top;
      destruct (truthy_string (value top)) as [v|] eqn:Hv;
      [ unfold uriComponent; destruct (enc v) as [w|] eqn:Hw;
        [ simpl; split; [by rewrite ?app_nil_r|]; left;
          split; [intros ? ?; simplify_eq; by eexists | by eexists]
        | simpl; split; [by rewrite ?app_nil_r|]; right;
          split; [|reflexivity];
          let H := fresh in
          intros H; destruct (H v eq_refl) as [? ?]; congruence ]
      | simpl; split; [by rewrite ?app_nil_r|]; left;
        split; [intros ? ?; simplify_eq | by eexists] ]
  end.

Lemma getPermitHistory_settles enc net address :
  settles_after_search enc 1 FailedToGetPermitHistory
    (searchAddress enc net address) (getPermitHistory enc net address).
Proof.
  unfold settles_after_search, getPermitHistory.
  destruct (searchAddress enc net address) as [[ss|e] t];
    unfold events, settled; simpl; step_task; simpl;
    [|split; [by rewrite ?app_nil_r | reflexivity]].
  destruct ss as [|top rest]; simpl.
  { split; [by rewrite ?app_nil_r|]. left. split; [|by eexists].
    intros i s v _ Hs. discriminate. }
  top_match enc.
Qed.

Lemma getPropertyTaxInfo_settles enc net address :
  settles_after_search enc 1 FailedToGetPropertyTaxInfo
    (searchAddress enc net address) (getPropertyTaxInfo enc net address).
Proof.
  unfold settles_after_search, getPropertyTaxInfo.
  destruct (searchAddress enc net address) as [[ss|e] t];
    unfold events, settled; simpl; step_task; simpl;
    [|split; [by rewrite ?app_nil_r | reflexivity]].
  destruct ss as [|top rest]; simpl.
  { split; [by rewrite ?app_nil_r|]. left. split; [|by eexists].
    intros i s v _ Hs. discriminate. }
  top_match enc.
Qed.

Lemma getPropertyDetails_settles enc propertyId :
  events (getPropertyDetails enc propertyId) = [] /\
  match enc propertyId with
  | Some _ =>
      exists body,
        settled (getPropertyDetails enc propertyId) = Fulfilled (addDisclaimer body)
  | None =>
      settled (getPropertyDetails enc propertyId)
      = Rejected (FailedToGetPropertyDetails (Cause URIError))
  end.
Proof.
  unfold getPropertyDetails, uriComponent.
  destruct (enc propertyId); split; try reflexivity. by eexists.
Qed.

(** X13. Network use of the text methods: [getPropertyInfo],
    [getZoningInfo], [getPermitHistory] and [getPropertyTaxInfo] each make at
    most one request, the suggestion lookup for the address with a count of
    10 (none when the address cannot be put into a URL), and never a geocoder
    request; [getPropertyDetails] makes no request at all. *)
Theorem text_methods_requests encodeURIComponent net address propertyId :
  let lookup :=
    match encodeURIComponent address with
    | Some _ => [GET_suggest address 10]
    | None => []
    end in
  events (getPropertyInfo encodeURIComponent net address) = lookup /\
  events (getZoningInfo encodeURIComponent net address) = lookup /\
  events (getPermitHistory encodeURIComponent net address) = lookup /\
  events (getPropertyTaxInfo encodeURIComponent net address) = lookup /\
  events (getPropertyDetails encodeURIComponent propertyId) = [].
Proof.
  intros lookup. subst lookup.
  assert (events (searchAddress encodeURIComponent net address)
          = match encodeURIComponent address with
            | Some _ => [GET_suggest address 10]
            | None => []
            end) as <-.
  { destruct (encodeURIComponent address) as [encoded|] eqn:Henc.
    - by rewrite searchAddress_encodable by (by eexists).
    - by rewrite searchAddress_unencodable. }
  destruct (getPropertyInfo_settles encodeURIComponent net address) as [-> _].
  destruct (getZoningInfo_settles encodeURIComponent net address) as [-> _].
  destruct (getPermitHistory_settles encodeURIComponent net address) as [-> _].
  destruct (getPropertyTaxInfo_settles encodeURIComponent net address) as [-> _].
  destruct (getPropertyDetails_settles encodeURIComponent propertyId) as [-> _].
  repeat split.
Qed.

Lemma settles_after_search_as enc k wrap search method ss :
  settles_after_search enc k wrap search method ->
  settled search = Fulfilled ss ->
  settles_as (settled method) (ids_encode enc k ss) (wrap (Cause URIError)).
Proof.
  intros [_ H] Hs. rewrite Hs in H.
  destruct H as [[Hok [body ->]] | [Hbad ->]]; [left | right]; eauto.
Qed.

(** X14. Error policy of the text methods.  When [searchAddress] rejects,
    each of the four methods that search rejects with that error wrapped once
    more under the method's own message.  When [searchAddress] resolves, each
    of them resolves to a text if the property identifiers it prints (those of
    the first three suggestions for [getPropertyInfo], of the first five for
    [getZoningInfo], of the first for the two others) can be put into a URL,
    and rejects with the wrapped [URIError] if one of them cannot; list
    indexing never fails.  [getPropertyDetails] resolves if its identifier
    can be encoded and rejects with the wrapped [URIError] if not. *)
Theorem text_methods_error_policy encodeURIComponent net address propertyId :
  match settled (searchAddress encodeURIComponent net address) with
  | Fulfilled suggestions =>
      settles_as (settled (getPropertyInfo encodeURIComponent net address))
        (ids_encode encodeURIComponent 3 suggestions)
        (FailedToGetPropertyInfo (Cause URIError)) /\
      settles_as (settled (getZoningInfo encodeURIComponent net address))
        (ids_encode encodeURIComponent 5 suggestions)
        (FailedToGetZoningInfo (Cause URIError)) /\
      settles_as (settled (getPermitHistory encodeURIComponent net address))
        (ids_encode encodeURIComponent 1 suggestions)
        (FailedToGetPermitHistory (Cause URIError)) /\
      settles_as (settled (getPropertyTaxInfo encodeURIComponent net address))
        (ids_encode encodeURIComponent 1 suggestions)
        (FailedToGetPropertyTaxInfo (Cause URIError))
  | Rejected e =>
      settled (getPropertyInfo encodeURIComponent net address)
      = Rejected (FailedToGetPropertyInfo e) /\
      settled (getZoningInfo encodeURIComponent net address)
      = Rejected (FailedToGetZoningInfo e) /\
      settled (getPermitHistory encodeURIComponent net address)
      = Rejected (FailedToGetPermitHistory e) /\
      settled (getPropertyTaxInfo encodeURIComponent net address)
      = Rejected (FailedToGetPropertyTaxInfo e)
  end /\
  settles_as (settled (getPropertyDetails encodeURIComponent propertyId))
    (is_Some (encodeURIComponent propertyId))
    (FailedToGetPropertyDetails (Cause URIError)).
Proof.
  pose proof (getPropertyInfo_settles encodeURIComponent net address) as H1.
  pose proof (getZoningInfo_settles encodeURIComponent net address) as H2.
  pose proof (getPermitHistory_settles encodeURIComponent net address) as H3.
  pose proof (getPropertyTaxInfo_settles encodeURIComponent net address) as H4.
  split.
  - destruct (settled (searchAddress encodeURIComponent net address))
      as [ss|e] eqn:Hs.
    + repeat split; eapply settles_after_search_as; eauto.
    + destruct H1 as [_ H1], H2 as [_ H2], H3 as [_ H3], H4 as [_ H4].
      rewrite Hs in H1, H2, H3, H4. auto.
  - destruct (getPropertyDetails_settles encodeURIComponent propertyId) as [_ H].
    destruct (encodeURIComponent propertyId) as [encoded|].
    + left. destruct H as [body ->]. eauto.
    + right. split; [by intros [? ?] | exact H].
Qed.

Lemma method_ends_with_disclaimer enc k wrap search method text :
  settles_after_search enc k wrap search method ->
  settled method = Fulfilled text ->
  exists body, text = body +:+ addDisclaimer "".
Proof.
  intros [_ H] Ht. destruct (settled search) as [ss|e].
  - destruct H as [[_ [body Hb]] | [_ Hr]]; [|congruence].
    rewrite Hb in Ht. injection Ht as <-. by eexists.
  - congruence.
Qed.

(** X15. Every text a client method resolves to ends with the disclaimer
    (the text [addDisclaimer] appends), on the no-results path as on the
    others. *)
Theorem texts_end_with_disclaimer encodeURIComponent net address propertyId text :
  settled (getPropertyInfo encodeURIComponent net address) = Fulfilled text \/
  settled (getZoningInfo encodeURIComponent net address) = Fulfilled text \/
  settled (getPermitHistory encodeURIComponent net address) = Fulfilled text \/
  settled (getPropertyTaxInfo encodeURIComponent net address) = Fulfilled text \/
  settled (getPropertyDetails encodeURIComponent propertyId) = Fulfilled text ->
  exists body, text = body +:+ addDisclaimer "".
Proof.
  intros [H | [H | [H | [H | H]]]].
  - eapply method_ends_with_disclaimer; [apply getPropertyInfo_settles | exact H].
  - eapply method_ends_with_disclaimer; [apply getZoningInfo_settles | exact H].
  - eapply method_ends_with_disclaimer; [apply getPermitHistory_settles | exact H].
  - eapply method_ends_with_disclaimer; [apply getPropertyTaxInfo_settles | exact H].
  - destruct (getPropertyDetails_settles encodeURIComponent propertyId) as [_ Hd].
    destruct (encodeURIComponent propertyId); [|congruence].
    destruct Hd as [body Hb]. rewrite Hb in H. injection H as <-. by eexists.
Qed.

Lemma texts_end_with_disclaimer_witness :
  exists body,
    addDisclaimer "No results found for address: zzz" = body +:+ addDisclaimer "".
Proof.
  apply (texts_end_with_disclaimer identity_encoding (listing_net None) "zzz" "R1").
  left. reflexivity.
Defined.

(** X16. No results: when [searchAddress] resolves to no suggestion, the four
    methods that search all resolve to the same text, the no-results line for
    the address followed by the disclaimer. *)
Theorem no_results_text encodeURIComponent net address :
  settled (searchAddress encodeURIComponent net address) = Fulfilled [] ->
  let text := addDisclaimer ("No results found for address: " +:+ address) in
  settled (getPropertyInfo encodeURIComponent net address) = Fulfilled text /\
  settled (getZoningInfo encodeURIComponent net address) = Fulfilled text /\
  settled (getPermitHistory encodeURIComponent net address) = Fulfilled text /\
  settled (getPropertyTaxInfo encodeURIComponent net address) = Fulfilled text.
Proof.
  intros Hs text. subst text.
  unfold getPropertyInfo, getZoningInfo, getPermitHistory, getPropertyTaxInfo.
  destruct (searchAddress encodeURIComponent net address) as [[ss|e] t];
    simpl in Hs; [|discriminate].
  injection Hs as ->. repeat split.
Qed.

Lemma no_results_text_witness :
  settled (getZoningInfo identity_encoding (listing_net (Some [])) "zzz")
  = Fulfilled (addDisclaimer "No results found for address: zzz").
Proof.
  apply (no_results_text identity_encoding (listing_net (Some [])) "zzz").
  reflexivity.
Defined.

Lemma lookup_below_take {A} (l1 l2 : list A) n i :
  take n l1 = take n l2 -> (i < n)%nat -> l1 !! i = l2 !! i.
Proof.
  intros Htake Hi.
  rewrite <- (lookup_take_lt l1 n i), <- (lookup_take_lt l2 n i) by done.
  by rewrite Htake.
Qed.

Ltac same_loop :=
  match goal with
  | |- context [for_range ?a ?n ?b1 ?s] =>
      match goal with
      | |- context [for_range a n ?b2 s] =>
          tryif constr_eq b1 b2 then fail else rewrite (for_range_ext a n b1 b2 s)
      end
  end.

(** X17. The listings are capped: with the same number of suggestions,
    [getZoningInfo] resolves to the same text for any two suggestion lists
    that agree on their first five entries, and [getPropertyInfo] for any two
    that agree on their first three.  Later suggestions only count towards the
    number the text reports. *)
Theorem listing_is_capped encodeURIComponent net1 net2 address ss1 ss2 :
  settled (searchAddress encodeURIComponent net1 address) = Fulfilled ss1 ->
  settled (searchAddress encodeURIComponent net2 address) = Fulfilled ss2 ->
  length ss1 = length ss2 ->
  (take 5 ss1 = take 5 ss2 ->
   settled (getZoningInfo encodeURIComponent net1 address)
   = settled (getZoningInfo encodeURIComponent net2 address)) /\
  (take 3 ss1 = take 3 ss2 ->
   settled (getPropertyInfo encodeURIComponent net1 address)
   = settled (getPropertyInfo encodeURIComponent net2 address)).
Proof.
  intros H1 H2 Hlen.
  unfold getZoningInfo, getPropertyInfo.
  destruct (searchAddress encodeURIComponent net1 address) as [[ss|e] t1];
    simpl in H1; [|discriminate].
  injection H1 as ->.
  destruct (searchAddress encodeURIComponent net2 address) as [[ss|e] t2];
    simpl in H2; [|discriminate].
  injection H2 as ->.
  unfold settled, fst. step_task. rewrite Hlen.
  split; intros Htake; (destruct (length ss2 =? 0)%nat; [reflexivity|]).
  - same_loop.
    + by destruct (for_range _ _ _ _) as [[text|e] t].
    + intros i s Hi. simpl. by rewrite (lookup_below_take ss1 ss2 5 i) by (done || lia).
  - same_loop.
    + by destruct (for_range _ _ _ _) as [[text|e] t].
    + intros i s Hi. simpl. by rewrite (lookup_below_take ss1 ss2 3 i) by (done || lia).
Qed.

Lemma listing_is_capped_witness :
  settled (getZoningInfo identity_encoding (listing_net (Some six_listed)) "1234 MAIN ST")
  = settled (getZoningInfo identity_encoding (listing_net (Some six_listed')) "1234 MAIN ST").
Proof.
  apply (listing_is_capped identity_encoding
           (listing_net (Some six_listed)) (listing_net (Some six_listed'))
           "1234 MAIN ST" six_listed six_listed');
    reflexivity.
Defined.

(** X18. Only the top match counts: [getPermitHistory] and
    [getPropertyTaxInfo] resolve to the same text for any two suggestion lists
    that have the same first entry. *)
Theorem top_match_only encodeURIComponent net1 net2 address ss1 ss2 :
  settled (searchAddress encodeURIComponent net1 address) = Fulfilled ss1 ->
  settled (searchAddress encodeURIComponent net2 address) = Fulfilled ss2 ->
  head ss1 = head ss2 ->
  settled (getPermitHistory encodeURIComponent net1 address)
  = settled (getPermitHistory encodeURIComponent net2 address) /\
  settled (getPropertyTaxInfo encodeURIComponent net1 address)
  = settled (getPropertyTaxInfo encodeURIComponent net2 address).
Proof.
  intros H1 H2 Hhead.
  unfold getPermitHistory, getPropertyTaxInfo.
  destruct (searchAddress encodeURIComponent net1 address) as [[ss|e] t1];
    simpl in H1; [|discriminate].
  injection H1 as ->.
  destruct (searchAddress encodeURIComponent net2 address) as [[ss|e] t2];
    simpl in H2; [|discriminate].
  injection H2 as ->.
  unfold settled, fst. step_task.
  destruct ss1 as [|top1 rest1], ss2 as [|top2 rest2]; try discriminate Hhead.
  - split; reflexivity.
  - injection Hhead as ->. simpl.
    split; by destruct (truthy_string (value top2)) as [v|];
      [unfold uriComponent; destruct (encodeURIComponent v)|].
Qed.

Lemma top_match_only_witness :
  settled (getPermitHistory identity_encoding sample_net "1234 MAIN ST")
  = settled (getPermitHistory identity_encoding (listing_net (Some six_listed))
               "1234 MAIN ST").
Proof.
  apply (top_match_only identity_encoding sample_net (listing_net (Some six_listed))
           "1234 MAIN ST" [sw_main; se_main; n_main] six_listed);
    reflexivity.
Defined.

(** ** The tool handler *)

Lemma callTool_resolve_address enc net args :
  callTool enc net "resolve_address" args
  = (match completion (resolveAddress enc net (arg_query args)
                         (default 10 (arg_max_results args)) (arg_bbox args)
                         (default false (arg_include_raw args))) with
     | Returned r => Fulfilled {| content := JsonText r; isError := false |}
     | Thrown e => Fulfilled {| content := ErrorText (Cause e); isError := true |}
     end,
     trace (resolveAddress enc net (arg_query args)
              (default 10 (arg_max_results args)) (arg_bbox args)
              (default false (arg_include_raw args)))).
Proof.
  unfold callTool. simpl String.eqb. cbv iota.
  destruct (resolveAddress _ _ _ _ _ _) as [[r|e] t]; run_task;
    by rewrite ?app_nil_r.
Qed.

Lemma report_method (method : Task string) :
  task_catch
    (info ← method; fulfil {| content := InfoText info; isError := false |})
    (fun error => fulfil {| content := ErrorText error; isError := true |})
  = (reported (settled method), events method).
Proof. destruct method as [[text|e] t]; run_task; by rewrite ?app_nil_r. Qed.

Lemma callTool_text_methods enc net args :
  callTool enc net "get_property_info" args
  = (reported (settled (getPropertyInfo enc net (arg_address args))),
     events (getPropertyInfo enc net (arg_address args))) /\
  callTool enc net "get_zoning_info" args
  = (reported (settled (getZoningInfo enc net (arg_address args))),
     events (getZoningInfo enc net (arg_address args))) /\
  callTool enc net "get_permit_history" args
  = (reported (settled (getPermitHistory enc net (arg_address args))),
     events (getPermitHistory enc net (arg_address args))) /\
  callTool enc net "get_tax_info" args
  = (reported (settled (getPropertyTaxInfo enc net (arg_address args))),
     events (getPropertyTaxInfo enc net (arg_address args))).
Proof.
  unfold callTool. simpl String.eqb. cbv iota.
  repeat split; apply report_method.
Qed.

Lemma callTool_unknown enc net name args :
  name ∉ TOOL_NAMES ->
  callTool enc net name args
  = (Fulfilled {| content := ErrorText (UnknownTool name); isError := true |}, []).
Proof.
  intros Hname. unfold callTool.
  assert (forall tool, tool ∈ TOOL_NAMES -> String.eqb name tool = false) as Hneq.
  { intros tool Htool. apply String.eqb_neq. by intros ->. }
  rewrite !Hneq by (unfold TOOL_NAMES; rewrite !elem_of_cons; tauto).
  reflexivity.
Qed.

(** X19. The handler never rejects: for every tool name and arguments it
    resolves to a result, and the result is flagged [isError] exactly when
    its text is an error message. *)
Theorem callTool_never_rejects encodeURIComponent net name args :
  exists result,
    settled (callTool encodeURIComponent net name args) = Fulfilled result /\
    (isError result = true <-> exists e, content result = ErrorText e).
Proof.
  destruct (callTool_text_methods encodeURIComponent net args)
    as (H1 & H2 & H3 & H4).
  pose proof (callTool_resolve_address encodeURIComponent net args) as H0.
  assert (forall outcome : Settled string,
            exists result, reported outcome = Fulfilled result /\
              (isError result = true <-> exists e, content result = ErrorText e))
    as Hrep.
  { intros [text|e]; eexists; (split; [reflexivity|]); simpl; split;
      try discriminate; eauto. by intros [? ?]. }
  destruct (decide (name ∈ TOOL_NAMES)) as [Hin|Hout].
  - unfold TOOL_NAMES in Hin. rewrite !elem_of_cons, elem_of_nil in Hin.
    destruct Hin as [-> | [-> | [-> | [-> | [-> | []]]]]].
    + rewrite H0. simpl. destruct (completion _) as [r|e]; eexists;
        (split; [reflexivity|]); simpl; split; try discriminate; eauto.
      by intros [? ?].
    + rewrite H1. apply Hrep.
    + rewrite H2. apply Hrep.
    + rewrite H3. apply Hrep.
    + rewrite H4. apply Hrep.
  - rewrite (callTool_unknown _ _ _ _ Hout). eexists. split; [reflexivity|].
    simpl. split; eauto.
Qed.

(** X20. An unknown tool name is answered without any request: for a name
    that is none of the five tools, the handler resolves to an error result
    naming the tool it was asked for. *)
Theorem unknown_tool_is_reported encodeURIComponent net name args :
  name <> "resolve_address" ->
  name <> "get_property_info" ->
  name <> "get_zoning_info" ->
  name <> "get_permit_history" ->
  name <> "get_tax_info" ->
  callTool encodeURIComponent net name args
  = (Fulfilled {| content := ErrorText (UnknownTool name); isError := true |}, []).
Proof.
  intros N1 N2 N3 N4 N5. apply callTool_unknown.
  unfold TOOL_NAMES. rewrite !elem_of_cons, elem_of_nil. tauto.
Qed.

Lemma unknown_tool_is_reported_witness :
  callTool identity_encoding sample_net "search_property" sample_arguments
  = (Fulfilled {| content := ErrorText (UnknownTool "search_property");
                  isError := true |}, []).
Proof.
  apply (unknown_tool_is_reported identity_encoding sample_net "search_property");
    discriminate.
Defined.

(** X21. Routing: [resolve_address] calls [resolveAddress] with the query,
    with [max_results] defaulting to 10 and [include_raw] to false, and makes
    exactly its requests; it reports the result, or the error thrown, flagged
    as an error.  The four other tools call their client method with the
    address and report its text, or the error it rejected with, flagged as an
    error. *)
Theorem callTool_routes encodeURIComponent net args :
  let resolved :=
    resolveAddress encodeURIComponent net (arg_query args)
      (match arg_max_results args with Some m => m | None => 10 end)
      (arg_bbox args)
      (match arg_include_raw args with Some b => b | None => false end) in
  events (callTool encodeURIComponent net "resolve_address" args) = trace resolved /\
  settled (callTool encodeURIComponent net "resolve_address" args)
  = match completion resolved with
    | Returned r => Fulfilled {| content := JsonText r; isError := false |}
    | Thrown e => Fulfilled {| content := ErrorText (Cause e); isError := true |}
    end /\
  settled (callTool encodeURIComponent net "get_property_info" args)
  = reported (settled (getPropertyInfo encodeURIComponent net (arg_address args))) /\
  settled (callTool encodeURIComponent net "get_zoning_info" args)
  = reported (settled (getZoningInfo encodeURIComponent net (arg_address args))) /\
  settled (callTool encodeURIComponent net "get_permit_history" args)
  = reported (settled (getPermitHistory encodeURIComponent net (arg_address args))) /\
  settled (callTool encodeURIComponent net "get_tax_info" args)
  = reported (settled (getPropertyTaxInfo encodeURIComponent net (arg_address args))).
Proof.
  intros resolved. subst resolved.
  destruct (callTool_text_methods encodeURIComponent net args)
    as (-> & -> & -> & ->).
  pose proof (callTool_resolve_address encodeURIComponent net args) as H0.
  unfold default in H0. rewrite H0. repeat split.
Qed.

(** ** Addresses that cannot be encoded, and scores in binary64 *)

(** X22. An address that cannot be put into a URL is not geocoded: no
    request is made for it, each of the two helpers logs the [URIError] it
    caught, and the resolver returns no match; the candidate built for a
    suggestion with such a label keeps the default coordinates and the
    [portlandmaps_api] tag. *)
Theorem unencodable_address_is_not_geocoded
    encodeURIComponent net includeRaw index suggestion :
  encodeURIComponent (label suggestion +:+ ", Portland, OR") = None ->
  geocodeWithArcGIS encodeURIComponent net (label suggestion)
  = (Returned None,
     [console_error "ArcGIS Oregon geocoder error:" URIError;
      console_error "ArcGIS World geocoder error:" URIError]) /\
  exists candidate,
    completion (toCandidate encodeURIComponent net includeRaw index suggestion)
    = Returned candidate /\
    source candidate = portlandmaps_api /\
    x_lon candidate = (- (1226765 # 10000))%Q /\
    y_lat candidate = (455155 # 10000)%Q /\
    score candidate = inject_Z (Z.max (100 - Z.of_nat index * 5) 50).
Proof.
  intros Henc. change ", Portland, OR" with PORTLAND_SUFFIX in Henc.
  assert (geocodeWithArcGIS encodeURIComponent net (label suggestion)
          = (Returned None,
             [console_error "ArcGIS Oregon geocoder error:" URIError;
              console_error "ArcGIS World geocoder error:" URIError])) as Hg.
  { unfold geocodeWithArcGIS, geocodeWithWorldGeocoder, uriComponent.
    rewrite Henc. reflexivity. }
  split; [exact Hg|].
  eexists. split; [apply toCandidate_completion|].
  pose proof (geocodeWithArcGIS_completion encodeURIComponent net (label suggestion))
    as Hc.
  rewrite Hg in Hc. injection Hc as <-. repeat split.
Qed.

Lemma unencodable_address_is_not_geocoded_witness :
  returned_candidates
    (resolveAddress strict_encoding (listing_net (Some [broken_label])) "1234 MAIN ST"
       10 None false)
  = [{| normalized_address := unpaired_surrogate; score := 100;
        property_id := Some "R777888"; taxlot_id := None;
        x_lon := - (1226765 # 10000); y_lat := 455155 # 10000;
        source := portlandmaps_api; raw := None |}] /\
  trace (geocodeWithArcGIS strict_encoding (listing_net (Some [broken_label]))
           unpaired_surrogate)
  = [console_error "ArcGIS Oregon geocoder error:" URIError;
     console_error "ArcGIS World geocoder error:" URIError].
Proof.
  destruct (unencodable_address_is_not_geocoded strict_encoding
              (listing_net (Some [broken_label])) false 0 broken_label)
    as [Hg _].
  - reflexivity.
  - split; [vm_compute; reflexivity|].
    change (label broken_label) with unpaired_surrogate in Hg. by rewrite Hg.
Defined.

(** X23. The score is computed in binary64: for the first suggestion and a
    match whose score is the double just below 1, the sum [100 + score]
    rounds to 101, so that the candidate's score is 51, where the exact mean,
    just below 50.5, would round to 50. *)
Theorem score_rounds_in_binary64 :
  (ArcGIS.score faint_match < 1)%Q /\
  score (buildCandidate false 0 sw_main (Some (as_result faint_match))) = 51%Q /\
  Math_round ((100 + ArcGIS.score faint_match) / 2) = 50%Q.
Proof. split; [reflexivity|]. split; vm_compute; reflexivity. Qed.

(** ** The order of the geocoder requests *)

Lemma geocode_starts enc net address :
  Forall (fun ev => is_world_call ev = false)
    (fst (until_first_request (trace (geocodeWithArcGIS enc net address)))) /\
  Forall (fun ev => is_oregon_call ev = false)
    (snd (until_first_request (trace (geocodeWithArcGIS enc net address)))).
Proof. geocode_cases enc net; split; repeat constructor. Qed.

Lemma geocoding_starts enc net turns (ss : list PropertySuggestion) :
  let runs :=
    until_first_request
      <$> ((fun s => trace (geocodeWithArcGIS enc net (label s))) <$> ss) in
  Forall (fun ev => is_world_call ev = false) (concat (fst <$> runs)) /\
  Forall (fun ev => is_oregon_call ev = false) (interleave turns (snd <$> runs)).
Proof.
  intros runs. subst runs. rewrite interleave_Permutation.
  induction ss as [|s ss [IH1 IH2]]; [split; constructor|].
  rewrite !fmap_cons, !concat_cons.
  destruct (geocode_starts enc net (label s)) as [H1 H2].
  split; apply Forall_app; split; assumption.
Qed.

Lemma before_after {A} (P Q : A -> bool) (l1 l2 : list A) i j a b :
  Forall (fun x => Q x = false) l1 ->
  Forall (fun x => P x = false) l2 ->
  (l1 ++ l2) !! i = Some a -> (l1 ++ l2) !! j = Some b ->
  P a = true -> Q b = true ->
  (i < j)%nat.
Proof.
  intros H1 H2 Hi Hj Ha Hb.
  apply lookup_app_Some in Hi as [Hi | [_ Hi]].
  - apply lookup_app_Some in Hj as [Hj | [Hlen _]].
    + apply list_elem_of_lookup_2 in Hj.
      rewrite Forall_forall in H1. specialize (H1 _ Hj). congruence.
    + apply lookup_lt_Some in Hi. lia.
  - apply list_elem_of_lookup_2 in Hi.
    rewrite Forall_forall in H2. specialize (H2 _ Hi). congruence.
Qed.

(** X24. All Oregon requests come first: in the trace of one
    [resolveAddress] call every request to the Oregon geocoder precedes every
    request to the World geocoder, in whatever order the answers arrive. *)
Theorem oregon_requests_first encodeURIComponent net q m bb includeRaw i j oregon world :
  let t := trace (resolveAddress encodeURIComponent net q m bb includeRaw) in
  t !! i = Some oregon ->
  t !! j = Some world ->
  is_oregon_call oregon = true ->
  is_world_call world = true ->
  (i < j)%nat.
Proof.
  intros t Hi Hj Ho Hw. subst t.
  destruct (encodeURIComponent q) as [encoded|] eqn:Henc;
    [|rewrite (resolveAddress_unencodable _ _ _ _ _ _ Henc) in Hi; discriminate].
  assert (is_Some (encodeURIComponent q)) as Hsome by (by eexists).
  destruct (suggest_service net q m) as [|[[] st [|data]]] eqn:Hs;
    try (destruct (resolveAddress_thrown encodeURIComponent net q m bb includeRaw)
           as (cause & Hc); [exact Hsome | by rewrite Hs |];
         rewrite Hc in Hi; destruct i; simpl in Hi; [|discriminate];
         injection Hi as <-; discriminate).
  rewrite (resolveAddress_trace _ _ _ _ _ _ _ _ Hsome Hs) in Hi, Hj.
  destruct i as [|i]; [simpl in Hi; injection Hi as <-; discriminate|].
  destruct j as [|j]; [simpl in Hj; injection Hj as <-; discriminate|].
  simpl in Hi, Hj. unfold join_traces in Hi, Hj.
  destruct (geocoding_starts encodeURIComponent net (arrival net)
              (suggestions_of data)) as [H1 H2].
  pose proof (before_after (fun ev => is_oregon_call ev) (fun ev => is_world_call ev)
                _ _ i j oregon world H1 H2 Hi Hj Ho Hw).
  lia.
Qed.

Lemma oregon_requests_first_witness :
  trace (resolveAddress identity_encoding sample_net "1234 MAIN ST" 10 None false)
    !! 3%nat = Some (GET_arcgisGeocoder "1234 N MAIN ST, Portland, OR") /\
  trace (resolveAddress identity_encoding sample_net "1234 MAIN ST" 10 None false)
    !! 4%nat = Some (GET_arcgisWorldGeocoder "1234 N MAIN ST, Portland, OR") /\
  (3 < 4)%nat.
Proof.
  split; [vm_compute; reflexivity|]. split; [vm_compute; reflexivity|].
  apply (oregon_requests_first identity_encoding sample_net "1234 MAIN ST" 10 None
           false 3 4
           (GET_arcgisGeocoder "1234 N MAIN ST, Portland, OR")
           (GET_arcgisWorldGeocoder "1234 N MAIN ST, Portland, OR")).
  - vm_compute. reflexivity.
  - vm_compute. reflexivity.
  - reflexivity.
  - reflexivity.
Defined.
